(** * Host agent of the Wake-on-LAN controller: [host-agent/listener.py]

    A shallow embedding of the HTTP listener (configuration loading, the
    two request gates, the status reporter, the three power-action
    dispatchers and the process entry point) together with the properties
    the specification states about them.

    Layout:
    - [Py]      the fragment of Python's object model the listener relies on
                (values produced by [yaml.safe_load], truthiness, [str],
                [int], [dict.get], the [in] operator, exceptions);
    - [Flask]   requests, JSON bodies and responses;
    - [Host]    the machine the agent runs on (platform strings, clock,
                process launching) and the effect monad of the handlers;
    - [Listener] the program itself, one definition per source function;
    - the vocabulary of the properties and sample inputs;
    - the theorems. *)

From Stdlib Require Import ZArith QArith List String Ascii Bool Lia DecimalString.
From Stdlib Require DecimalPos DecimalZ.
Import ListNotations.

Open Scope string_scope.
Open Scope Z_scope.

(* ================================================================= *)
(** ** Python values and builtins *)

Set Warnings "-register-all".

Module Py.

(** What [yaml.safe_load] can hand to the program: [None], booleans,
    integers, strings, sequences and mappings.  Floats, dates, byte
    strings and sets are outside the fragment.  A mapping is kept as the
    list of the items of the Python [dict], in insertion order; a [dict]
    has no two equal keys.  Strings are sequences of bytes (UTF-8). *)
Inductive value : Type :=
| VNone
| VBool (b : bool)
| VInt (n : Z)
| VStr (s : string)
| VList (items : list value)
| VDict (items : list (value * value)).

(** Exceptions.  [SystemExit] derives from [BaseException] only; the
    classes of [error_class] all derive from [Exception].  Message texts
    are those of CPython 3.12. *)
Inductive error_class : Type :=
| AttributeError
| TypeError
| ValueError
| YAMLError
| OSError.

Inductive exn : Type :=
| SystemExit (code : Z)
| Error (cls : error_class) (msg : string).

Definition is_Exception (e : exn) : bool :=
  match e with
  | SystemExit _ => false
  | Error _ _ => true
  end.

Inductive result (A : Type) : Type :=
| Ok (a : A)
| Raise (e : exn).
Arguments Ok {A} a.
Arguments Raise {A} e.

Definition bind {A B} (m : result A) (k : A -> result B) : result B :=
  match m with
  | Ok a => k a
  | Raise e => Raise e
  end.

(** [bool(v)], also the test of [if v], [not v] and [v or w]. *)
Definition truthy (v : value) : bool :=
  match v with
  | VNone => false
  | VBool b => b
  | VInt n => negb (n =? 0)
  | VStr s => match s with EmptyString => false | String _ _ => true end
  | VList l => match l with [] => false | _ :: _ => true end
  | VDict l => match l with [] => false | _ :: _ => true end
  end.

(** [a or b] *)
Definition or_ (a b : value) : value := if truthy a then a else b.

(** [s == v] for a string [s]: a [str] is equal to strings only. *)
Definition str_eq (s : string) (v : value) : bool :=
  match v with
  | VStr t => String.eqb s t
  | _ => false
  end.

Definition type_name (v : value) : string :=
  match v with
  | VNone => "NoneType"
  | VBool _ => "bool"
  | VInt _ => "int"
  | VStr _ => "str"
  | VList _ => "list"
  | VDict _ => "dict"
  end.

(** *** [repr] and [str] *)

Definition backslash : ascii := ascii_of_nat 92.
Definition dquote : ascii := ascii_of_nat 34.
Definition squote : ascii := ascii_of_nat 39.

Definition has_char (c : ascii) (s : string) : bool :=
  existsb (Ascii.eqb c) (list_ascii_of_string s).

Definition hex_digit (n : nat) : ascii :=
  if (n <? 10)%nat then ascii_of_nat (48 + n) else ascii_of_nat (87 + n).

Definition char (c : ascii) : string := String c EmptyString.

(** [repr] of a string puts it in single quotes, or in double quotes when
    it holds a single quote and no double quote, and escapes the quote, the
    backslash and the ASCII control characters.  Bytes above 127 are copied,
    which is what Python does for printable characters. *)
Definition escape_char (q c : ascii) : string :=
  let n := nat_of_ascii c in
  if Ascii.eqb c q || Ascii.eqb c backslash then String backslash (char c)
  else if (n =? 9)%nat then String backslash "t"
  else if (n =? 10)%nat then String backslash "n"
  else if (n =? 13)%nat then String backslash "r"
  else if (n <? 32)%nat || (n =? 127)%nat then
    String backslash (String "x" (String (hex_digit (n / 16)) (char (hex_digit (n mod 16)))))
  else char c.

Fixpoint escape (q : ascii) (s : string) : string :=
  match s with
  | EmptyString => EmptyString
  | String c r => escape_char q c ++ escape q r
  end.

Definition repr_str (s : string) : string :=
  let q := if has_char squote s && negb (has_char dquote s) then dquote else squote in
  String q (escape q s ++ char q).

Definition decimal (n : Z) : string := NilZero.string_of_int (Z.to_int n).

Fixpoint join (sep : string) (l : list string) : string :=
  match l with
  | [] => EmptyString
  | [x] => x
  | x :: r => x ++ sep ++ join sep r
  end.

Fixpoint repr (v : value) : string :=
  match v with
  | VNone => "None"
  | VBool true => "True"
  | VBool false => "False"
  | VInt n => decimal n
  | VStr s => repr_str s
  | VList l => "[" ++ join ", " (map repr l) ++ "]"
  | VDict l => "{" ++ join ", " (map (fun '(k, x) => repr k ++ ": " ++ repr x) l) ++ "}"
  end.

(** [str(v)]: a string is itself, everything else is its [repr]. *)
Definition str (v : value) : string :=
  match v with
  | VStr s => s
  | _ => repr v
  end.

(** *** [int] *)

Definition is_space (c : ascii) : bool :=
  let n := nat_of_ascii c in
  ((9 <=? n) && (n <=? 13) || (28 <=? n) && (n <=? 32))%nat.

Fixpoint lstrip (s : list ascii) : list ascii :=
  match s with
  | c :: r => if is_space c then lstrip r else s
  | [] => []
  end.

Definition strip (s : list ascii) : list ascii := rev (lstrip (rev (lstrip s))).

Definition digit_of (c : ascii) : option Z :=
  let n := nat_of_ascii c in
  if ((48 <=? n) && (n <=? 57))%nat then Some (Z.of_nat n - 48) else None.

(** Decimal digits, single underscores allowed between two digits. *)
Fixpoint digits (acc : Z) (after_underscore : bool) (s : list ascii) : option Z :=
  match s with
  | [] => if after_underscore then None else Some acc
  | c :: r =>
      if Ascii.eqb c "_" then
        if after_underscore then None else digits acc true r
      else
        match digit_of c with
        | Some d => digits (10 * acc + d) false r
        | None => None
        end
  end.

Definition literal (s : list ascii) : option Z :=
  match s with
  | [] => None
  | c :: _ => if Ascii.eqb c "_" then None else digits 0 false s
  end.

(** [int(s)] in base 10: surrounding white space is dropped, one sign is
    allowed.  Only ASCII digits and spaces are recognised here. *)
Definition int_of_str (s : string) : option Z :=
  match strip (list_ascii_of_string s) with
  | c :: r =>
      if Ascii.eqb c "-" then option_map Z.opp (literal r)
      else if Ascii.eqb c "+" then literal r
      else literal (c :: r)
  | [] => None
  end.

Definition int (v : value) : result Z :=
  match v with
  | VInt n => Ok n
  | VBool b => Ok (if b then 1 else 0)
  | VStr s =>
      match int_of_str s with
      | Some n => Ok n
      | None =>
          Raise (Error ValueError ("invalid literal for int() with base 10: " ++ repr_str s))
      end
  | VNone | VList _ | VDict _ =>
      Raise (Error TypeError
        ("int() argument must be a string, a bytes-like object or a real number, not '"
           ++ type_name v ++ "'"))
  end.

(** *** [dict.get] and [in] *)

Fixpoint lookup (key : string) (items : list (value * value)) : option value :=
  match items with
  | [] => None
  | (k, v) :: rest => if str_eq key k then Some v else lookup key rest
  end.

(** [d.get(key, default)] for a string key.  Only a [dict] has the method;
    on anything else the attribute lookup raises. *)
Definition get (d : value) (key : string) (default : value) : result value :=
  match d with
  | VDict items =>
      match lookup key items with
      | Some v => Ok v
      | None => Ok default
      end
  | _ =>
      Raise (Error AttributeError ("'" ++ type_name d ++ "' object has no attribute 'get'"))
  end.

(** Substring test, [s in t] on two strings. *)
Fixpoint is_substring (s t : string) : bool :=
  if String.prefix s t then true
  else match t with
       | EmptyString => false
       | String _ t' => is_substring s t'
       end.

(** [s in c] for a string [s]: membership by equality in a list, among
    the keys of a dict, substring in a string; the remaining values are
    not containers. *)
Definition contains (s : string) (c : value) : result bool :=
  match c with
  | VList l => Ok (existsb (str_eq s) l)
  | VDict l => Ok (existsb (str_eq s) (map fst l))
  | VStr t => Ok (is_substring s t)
  | VNone | VBool _ | VInt _ =>
      Raise (Error TypeError ("argument of type '" ++ type_name c ++ "' is not iterable"))
  end.

End Py.

(* ================================================================= *)
(** ** Monads

    Code that can raise lives in [Py.result]; request handlers also read
    the host and leave a trace, see [Host.io].  Both share one notation. *)

Class Monad (M : Type -> Type) : Type :=
  { ret : forall {A}, A -> M A;
    mbind : forall {A B}, M A -> (A -> M B) -> M B }.

Declare Scope monad_scope.
Delimit Scope monad_scope with monad.
Notation "x <- m ;; k" := (mbind m (fun x => k))
  (at level 61, m at next level, right associativity) : monad_scope.
Notation "m ;;; k" := (mbind m (fun _ => k))
  (at level 61, right associativity) : monad_scope.
Open Scope monad_scope.

#[export] Instance result_monad : Monad Py.result :=
  { ret := @Py.Ok; mbind := @Py.bind }.

(* ================================================================= *)
(** ** Flask: requests and responses *)

Module Flask.

(** The parts of [flask.request] the handlers read: the peer address
    (a [str], as the annotation of [_authorized_client] has it) and the
    query parameters, in the order of the query string. *)
Record request : Type :=
  { remote_addr : string;
    args : list (string * string) }.

(** [request.args.get(key, default)]: the first value of the key. *)
Fixpoint args_get (l : list (string * string)) (key default : string) : string :=
  match l with
  | [] => default
  | (k, v) :: rest => if String.eqb k key then v else args_get rest key default
  end.

Inductive json : Type :=
| JStr (s : string)
| JInt (n : Z).

(** A response body is a JSON object, or the page Flask renders itself
    when a view function raises. *)
Inductive payload : Type :=
| Json (fields : list (string * json))
| InternalServerErrorPage.

Record response : Type :=
  { body : payload;
    status_code : Z }.

(** [jsonify(d)] is a response with status 200; returning [(resp, code)]
    from a view replaces the status. *)
Definition jsonify (fields : list (string * json)) : response :=
  {| body := Json fields; status_code := 200 |}.

Definition with_status (r : response) (code : Z) : response :=
  {| body := body r; status_code := code |}.

End Flask.

(* ================================================================= *)
(** ** The host machine and the effects of a handler *)

Module Host.

(** The three power actions. *)
Inductive action : Type := Sleep | Shutdown | Restart.

(** What the handlers can observe of the machine: [platform.node()],
    [platform.system()], [platform.version()], the reading of
    [time.time()] (a float, here the rational it denotes) and the fate of
    a [subprocess.Popen(argv)]: [None] when the child is started,
    [Some msg] when the call raises an [OSError] whose [str] is [msg]. *)
Record host : Type :=
  { node : string;
    system : string;
    version : string;
    time : Q;
    launch : list string -> option string }.

(** What a handler leaves behind.  [Called a] marks the entry into the
    dispatcher of [a]; it stands for no statement of the source and only
    serves to count invocations. *)
Inductive event : Type :=
| Called (a : action)
| Spawned (argv : list string)
| LoggedError (msg : string).

Definition trace : Type := list event.

Definition io (A : Type) : Type := host -> trace -> Py.result A * trace.

Definition io_ret {A} (a : A) : io A := fun _ tr => (Py.Ok a, tr).

Definition io_bind {A B} (m : io A) (k : A -> io B) : io B :=
  fun h tr =>
    match m h tr with
    | (Py.Ok a, tr') => k a h tr'
    | (Py.Raise e, tr') => (Py.Raise e, tr')
    end.

Definition lift {A} (r : Py.result A) : io A := fun _ tr => (r, tr).

Definition emit (e : event) : io unit := fun _ tr => (Py.Ok tt, (tr ++ [e])%list).

Definition platform_node : io string := fun h tr => (Py.Ok (node h), tr).
Definition platform_system : io string := fun h tr => (Py.Ok (system h), tr).
Definition platform_version : io string := fun h tr => (Py.Ok (version h), tr).
Definition time_time : io Q := fun h tr => (Py.Ok (time h), tr).

(** [subprocess.Popen(argv)]: fire and forget. *)
Definition subprocess_Popen (argv : list string) : io unit :=
  fun h tr =>
    match launch h argv with
    | None => (Py.Ok tt, (tr ++ [Spawned argv])%list)
    | Some msg => (Py.Raise (Py.Error Py.OSError msg), tr)
    end.

Definition logger_error (msg : string) : io unit := emit (LoggedError msg).

(** [try: body  except Exception as e: handler(e)] *)
Definition try_except {A} (body : io A) (handler : Py.exn -> io A) : io A :=
  fun h tr =>
    match body h tr with
    | (Py.Raise e, tr') =>
        if Py.is_Exception e then handler e h tr' else (Py.Raise e, tr')
    | r => r
    end.

(** [int(x)] of a float truncates towards zero. *)
Definition int_of_float (x : Q) : Z := Z.quot (Qnum x) (Z.pos (Qden x)).

(** [str(e)] of a caught exception. *)
Definition exn_str (e : Py.exn) : string :=
  match e with
  | Py.Error _ msg => msg
  | Py.SystemExit code => Py.decimal code
  end.

End Host.

#[export] Instance io_monad : Monad Host.io :=
  { ret := @Host.io_ret; mbind := @Host.io_bind }.

(* ================================================================= *)
(** ** The listener *)

Module Listener.

Import Py Flask Host.

(** *** Configuration *)

(** [config/device.yaml] as the process finds it: missing, present with
    a text [yaml.safe_load] rejects, or present and parsed. *)
Inductive config_file : Type :=
| Absent
| Malformed (msg : string)
| Parsed (v : value).

Definition path_exists (f : config_file) : bool :=
  match f with
  | Absent => false
  | _ => true
  end.

(** Opening the file and [yaml.safe_load] of its text. *)
Definition yaml_safe_load (f : config_file) : result value :=
  match f with
  | Parsed v => Ok v
  | Malformed msg => Raise (Error YAMLError msg)
  | Absent => Raise (Error OSError "No such file or directory")
  end.

Definition sys_exit {A} (code : Z) : result A := Raise (SystemExit code).

(** What is printed on the way is not part of the model. *)
Definition load_config (f : config_file) : result value :=
  if negb (path_exists f) then sys_exit 1
  else
    config <- yaml_safe_load f ;;
    ret config.

(** The module-level names, bound once when the module is executed and
    never assigned again. *)
Record globals : Type :=
  { CFG : value;
    SECRET_TOKEN : string;
    HOST_CFG : value;
    LISTEN_PORT : Z;
    ALLOWED_IPS : value }.

(** The assignments of the module body, in their order: [CFG],
    [SECRET_TOKEN], [HOST_CFG], [LISTEN_PORT], [ALLOWED_IPS]. *)
Definition module_init (f : config_file) : result globals :=
  cfg <- load_config f ;;
  esp <- get cfg "esp" (VDict []) ;;
  token <- get esp "token" (VStr EmptyString) ;;
  let secret_token := str token in
  host_cfg <- get cfg "host" (VDict []) ;;
  port <- get host_cfg "port" (VInt 8888) ;;
  listen_port <- int port ;;
  allowed <- get host_cfg "allowed_ips" (VList []) ;;
  ret {| CFG := cfg;
         SECRET_TOKEN := secret_token;
         HOST_CFG := host_cfg;
         LISTEN_PORT := listen_port;
         ALLOWED_IPS := or_ allowed (VList []) |}.

(** *** The two gates *)

Section WithGlobals.

Variable g : globals.

Definition _authorized_client (ip : string) : result bool :=
  if negb (truthy (ALLOWED_IPS g)) then ret true
  else contains ip (ALLOWED_IPS g).

Definition _check_token (req_token : string) : bool :=
  truthy (VStr (SECRET_TOKEN g)) && String.eqb req_token (SECRET_TOKEN g).

(** *** Status *)

Definition status (req : request) : io response :=
  hostname <- platform_node ;;
  os <- platform_system ;;
  os_version <- platform_version ;;
  now <- time_time ;;
  ret (jsonify [ ("status", JStr "running");
                 ("hostname", JStr hostname);
                 ("os", JStr os);
                 ("os_version", JStr os_version);
                 ("port", JInt (LISTEN_PORT g));
                 ("uptime", JInt (int_of_float now)) ]).

End WithGlobals.

(** *** Power actions *)

Definition shutdown_computer : io bool :=
  emit (Called Shutdown) ;;;
  try_except
    (system <- platform_system ;;
     if String.eqb system "Windows" then
       subprocess_Popen ["shutdown"; "/s"; "/t"; "0"] ;;; ret true
     else if String.eqb system "Linux" then
       subprocess_Popen ["systemctl"; "poweroff"] ;;; ret true
     else if String.eqb system "Darwin" then
       subprocess_Popen ["sudo"; "shutdown"; "-h"; "now"] ;;; ret true
     else ret false)
    (fun e =>
       logger_error ("shutdown failed: " ++ exn_str e) ;;; ret false).

Definition ps_cmd : string :=
  "(Add-Type -AssemblyName System.Windows.Forms); [System.Windows.Forms.Application]::SetSuspendState('Suspend',$false,$false)".

Definition sleep_computer : io bool :=
  emit (Called Sleep) ;;;
  try_except
    (system <- platform_system ;;
     if String.eqb system "Windows" then
       subprocess_Popen ["powershell"; "-NoProfile"; "-Command"; ps_cmd] ;;; ret true
     else if String.eqb system "Linux" then
       subprocess_Popen ["systemctl"; "suspend"] ;;; ret true
     else if String.eqb system "Darwin" then
       subprocess_Popen ["pmset"; "sleepnow"] ;;; ret true
     else ret false)
    (fun e =>
       logger_error ("sleep failed: " ++ exn_str e) ;;; ret false).

Definition restart_computer : io bool :=
  emit (Called Restart) ;;;
  try_except
    (system <- platform_system ;;
     if String.eqb system "Windows" then
       subprocess_Popen ["shutdown"; "/r"; "/t"; "0"] ;;; ret true
     else if String.eqb system "Linux" then
       subprocess_Popen ["systemctl"; "reboot"] ;;; ret true
     else if String.eqb system "Darwin" then
       subprocess_Popen ["sudo"; "shutdown"; "-r"; "now"] ;;; ret true
     else ret false)
    (fun e =>
       logger_error ("restart failed: " ++ exn_str e) ;;; ret false).

(** *** Privileged routes *)

Definition forbidden : response :=
  with_status (jsonify [("status", JStr "error"); ("message", JStr "Forbidden: IP not allowed")]) 403.

Definition unauthorized : response :=
  with_status (jsonify [("status", JStr "error"); ("message", JStr "Unauthorized")]) 401.

Definition success : response :=
  with_status (jsonify [("status", JStr "success")]) 200.

Definition failure : response :=
  with_status (jsonify [("status", JStr "error")]) 500.

Section Routes.

Variable g : globals.

Definition route_sleep (req : request) : io response :=
  let client_ip := remote_addr req in
  allowed <- lift (_authorized_client g client_ip) ;;
  if negb allowed then ret forbidden
  else
    let token := args_get (args req) "token" EmptyString in
    if negb (_check_token g token) then ret unauthorized
    else
      ok <- sleep_computer ;;
      ret (if ok then success else failure).

Definition route_shutdown (req : request) : io response :=
  let client_ip := remote_addr req in
  allowed <- lift (_authorized_client g client_ip) ;;
  if negb allowed then ret forbidden
  else
    let token := args_get (args req) "token" EmptyString in
    if negb (_check_token g token) then ret unauthorized
    else
      ok <- shutdown_computer ;;
      ret (if ok then success else failure).

Definition route_restart (req : request) : io response :=
  let client_ip := remote_addr req in
  allowed <- lift (_authorized_client g client_ip) ;;
  if negb allowed then ret forbidden
  else
    let token := args_get (args req) "token" EmptyString in
    if negb (_check_token g token) then ret unauthorized
    else
      ok <- restart_computer ;;
      ret (if ok then success else failure).

(** *** The application *)

(** The rules registered with [@app.route]. *)
Inductive endpoint : Type :=
| Status
| Power (a : action).

Definition rule (e : endpoint) : string :=
  match e with
  | Status => "/status"
  | Power Sleep => "/sleep"
  | Power Shutdown => "/shutdown"
  | Power Restart => "/restart"
  end.

Definition view (e : endpoint) : request -> io response :=
  match e with
  | Status => status g
  | Power Sleep => route_sleep
  | Power Shutdown => route_shutdown
  | Power Restart => route_restart
  end.

(** What the server answers to a request routed to [e]: the response of
    the view, or Flask's own 500 page when the view raises. *)
Definition serve (e : endpoint) (req : request) (h : host) (tr : trace)
  : response * trace :=
  match view e req h tr with
  | (Ok r, tr') => (r, tr')
  | (Raise _, tr') => ({| body := InternalServerErrorPage; status_code := 500 |}, tr')
  end.

End Routes.

(** *** Entry point *)

(** [app.run(host, port)] hands control to the HTTP server, which binds
    the socket and serves until the process is stopped. *)
Record listener : Type :=
  { bind_host : string;
    bind_port : Z }.

Definition app_run (host_ : string) (port : Z) : result listener :=
  ret {| bind_host := host_; bind_port := port |}.

Definition main (g : globals) : result listener :=
  if negb (truthy (VStr (SECRET_TOKEN g))) then sys_exit 1
  else app_run "0.0.0.0" (LISTEN_PORT g).

(** How a run of the script ends: the process is gone with an exit
    status, or it is serving requests under the loaded globals. *)
Inductive outcome : Type :=
| Exited (code : Z)
| Serving (g : globals) (l : listener).

(** An uncaught [SystemExit(code)] ends the process with that status, any
    other uncaught exception with a traceback and status 1. *)
Definition exit_status (e : exn) : Z :=
  match e with
  | SystemExit code => code
  | Error _ _ => 1
  end.

(** The file run as a script: the module body, then [main()] under the
    [__main__] guard. *)
Definition run_script (f : config_file) : outcome :=
  match module_init f with
  | Raise e => Exited (exit_status e)
  | Ok g =>
      match main g with
      | Raise e => Exited (exit_status e)
      | Ok l => Serving g l
      end
  end.

End Listener.

(* ================================================================= *)
(** ** Vocabulary of the properties *)

Import Py Flask Host Listener.

(** The dispatcher behind each privileged route. *)
Definition dispatcher (a : action) : io bool :=
  match a with
  | Sleep => sleep_computer
  | Shutdown => shutdown_computer
  | Restart => restart_computer
  end.

(** The word each dispatcher puts in front of its log line. *)
Definition verb (a : action) : string :=
  match a with
  | Sleep => "sleep"
  | Shutdown => "shutdown"
  | Restart => "restart"
  end.

(** The OS families the dispatchers know. *)
Definition recognized : list string := ["Windows"; "Linux"; "Darwin"].

(** The command each dispatcher launches on each OS family, read off the
    three functions. *)
Definition native_command (a : action) (os : string) : option (list string) :=
  if String.eqb os "Windows" then
    Some match a with
         | Sleep => ["powershell"; "-NoProfile"; "-Command"; ps_cmd]
         | Shutdown => ["shutdown"; "/s"; "/t"; "0"]
         | Restart => ["shutdown"; "/r"; "/t"; "0"]
         end
  else if String.eqb os "Linux" then
    Some match a with
         | Sleep => ["systemctl"; "suspend"]
         | Shutdown => ["systemctl"; "poweroff"]
         | Restart => ["systemctl"; "reboot"]
         end
  else if String.eqb os "Darwin" then
    Some match a with
         | Sleep => ["pmset"; "sleepnow"]
         | Shutdown => ["sudo"; "shutdown"; "-h"; "now"]
         | Restart => ["sudo"; "shutdown"; "-r"; "now"]
         end
  else None.

(** The launch of the native command of [a] on [h] did not raise. *)
Definition launched (a : action) (h : host) : Prop :=
  exists argv, native_command a (system h) = Some argv /\ launch h argv = None.

(** The dispatcher invocations recorded in a trace, oldest first. *)
Fixpoint calls (tr : trace) : list action :=
  match tr with
  | [] => []
  | Called a :: rest => a :: calls rest
  | _ :: rest => calls rest
  end.

(** The token a request supplies. *)
Definition supplied_token (req : request) : string :=
  args_get (args req) "token" EmptyString.

(** What the two gates decide for a request. *)
Inductive decision : Type :=
| Denied403
| Denied401
| Passed
| GateRaised (e : exn).

Definition gates (g : globals) (req : request) : decision :=
  match _authorized_client g (remote_addr req) with
  | Raise e => GateRaised e
  | Ok false => Denied403
  | Ok true => if _check_token g (supplied_token req) then Passed else Denied401
  end.

(** A field of a JSON response. *)
Fixpoint assoc (key : string) (fields : list (string * json)) : option json :=
  match fields with
  | [] => None
  | (k, v) :: rest => if String.eqb k key then Some v else assoc key rest
  end.

Definition field (key : string) (r : response) : option json :=
  match body r with
  | Json fields => assoc key fields
  | InternalServerErrorPage => None
  end.

Definition keys (r : response) : list string :=
  match body r with
  | Json fields => map fst fields
  | InternalServerErrorPage => []
  end.

(** The commands started and the error lines logged in a trace, oldest
    first. *)
Fixpoint spawned (tr : trace) : list (list string) :=
  match tr with
  | [] => []
  | Spawned argv :: rest => argv :: spawned rest
  | _ :: rest => spawned rest
  end.

Fixpoint logged (tr : trace) : list string :=
  match tr with
  | [] => []
  | LoggedError msg :: rest => msg :: logged rest
  | _ :: rest => logged rest
  end.

(** What the native command of [a] on [h] adds to the started commands
    and to the log. *)
Definition outcome_spawned (a : action) (h : host) : list (list string) :=
  match native_command a (system h) with
  | Some argv => match launch h argv with None => [argv] | Some _ => [] end
  | None => []
  end.

Definition outcome_logged (a : action) (h : host) : list string :=
  match native_command a (system h) with
  | Some argv =>
      match launch h argv with
      | None => []
      | Some msg => [verb a ++ " failed: " ++ msg]
      end
  | None => []
  end.

(** The number a sequence of decimal digits denotes, most significant
    digit first, on top of an accumulator. *)
Fixpoint uval (acc : Z) (d : Decimal.uint) : Z :=
  match d with
  | Decimal.Nil => acc
  | Decimal.D0 d => uval (10 * acc + 0) d
  | Decimal.D1 d => uval (10 * acc + 1) d
  | Decimal.D2 d => uval (10 * acc + 2) d
  | Decimal.D3 d => uval (10 * acc + 3) d
  | Decimal.D4 d => uval (10 * acc + 4) d
  | Decimal.D5 d => uval (10 * acc + 5) d
  | Decimal.D6 d => uval (10 * acc + 6) d
  | Decimal.D7 d => uval (10 * acc + 7) d
  | Decimal.D8 d => uval (10 * acc + 8) d
  | Decimal.D9 d => uval (10 * acc + 9) d
  end.

Definition chars_of_uint (d : Decimal.uint) : list ascii :=
  list_ascii_of_string (NilEmpty.string_of_uint d).

(** Configurations off the documented shape. *)
Module Edge.

(** [host.allowed_ips] written as one address instead of a sequence. *)
Definition text_allowlist : globals :=
  {| CFG := VDict [];
     SECRET_TOKEN := "abc123 ";
     HOST_CFG := VDict [ (VStr "allowed_ips", VStr "192.168.1.10") ];
     LISTEN_PORT := 8888;
     ALLOWED_IPS := VStr "192.168.1.10" |}.


(** The module imported with an empty secret, [main] not run. *)
Definition no_secret : globals :=
  {| CFG := VDict [];
     SECRET_TOKEN := EmptyString;
     HOST_CFG := VDict [];
     LISTEN_PORT := 8888;
     ALLOWED_IPS := VList [] |}.

Definition no_token_request : request :=
  {| remote_addr := "192.168.1.50"; args := [("verbose", "1")] |}.

Definition two_tokens_request : request :=
  {| remote_addr := "192.168.1.50";
     args := [("verbose", "1"); ("token", "guess"); ("token", "abc123 ")] |}.



End Edge.

(** The answer Flask gives when a view raises. *)
Definition error_page : response :=
  {| body := InternalServerErrorPage; status_code := 500 |}.

(** The host [h] observed at another moment. *)
Definition at_time (h : host) (t : Q) : host :=
  {| node := node h; system := system h; version := version h;
     time := t; launch := launch h |}.

(* ================================================================= *)
(** ** Sample inputs *)

Module Sample.

(** A configuration with a secret that ends in a space and a one-entry
    allowlist. *)
Definition device_yaml : config_file :=
  Parsed (VDict
    [ (VStr "esp", VDict [ (VStr "token", VStr "abc123 ") ]);
      (VStr "host", VDict [ (VStr "port", VInt 8888);
                            (VStr "allowed_ips", VList [VStr "192.168.1.50"]) ]) ]).

Definition loaded : globals :=
  {| CFG := match device_yaml with Parsed v => v | _ => VNone end;
     SECRET_TOKEN := "abc123 ";
     HOST_CFG := VDict [ (VStr "port", VInt 8888);
                         (VStr "allowed_ips", VList [VStr "192.168.1.50"]) ];
     LISTEN_PORT := 8888;
     ALLOWED_IPS := VList [VStr "192.168.1.50"] |}.

(** The same without an allowlist. *)
Definition open_to_all : globals :=
  {| CFG := CFG loaded;
     SECRET_TOKEN := SECRET_TOKEN loaded;
     HOST_CFG := HOST_CFG loaded;
     LISTEN_PORT := LISTEN_PORT loaded;
     ALLOWED_IPS := VList [] |}.

Definition good_request : request :=
  {| remote_addr := "192.168.1.50"; args := [("token", "abc123 ")] |}.

Definition trimmed_request : request :=
  {| remote_addr := "192.168.1.50"; args := [("token", "abc123")] |}.

Definition stranger_request : request :=
  {| remote_addr := "10.0.0.7"; args := [("token", "abc123 ")] |}.

Definition linux : host :=
  {| node := "nas"; system := "Linux"; version := "#1 SMP";
     time := 3400000001 # 2;
     launch := fun _ => None |}.

(** A Linux machine without [systemctl]. *)
Definition broken_linux : host :=
  {| node := "nas"; system := "Linux"; version := "#1 SMP";
     time := 3400000001 # 2;
     launch := fun _ => Some "[Errno 2] No such file or directory: 'systemctl'" |}.

Definition freebsd : host :=
  {| node := "bsd"; system := "FreeBSD"; version := "14.0";
     time := 3400000001 # 2;
     launch := fun _ => None |}.

(** [host.allowed_ips] present and null, the port given as text. *)
Definition null_allowlist_yaml : config_file :=
  Parsed (VDict
    [ (VStr "esp", VDict [ (VStr "token", VStr "abc123 ") ]);
      (VStr "host", VDict [ (VStr "port", VStr "9000");
                            (VStr "allowed_ips", VNone) ]) ]).

Definition null_allowlist_loaded : globals :=
  {| CFG := match null_allowlist_yaml with Parsed v => v | _ => VNone end;
     SECRET_TOKEN := "abc123 ";
     HOST_CFG := VDict [ (VStr "port", VStr "9000"); (VStr "allowed_ips", VNone) ];
     LISTEN_PORT := 9000;
     ALLOWED_IPS := VList [] |}.

(** [esp.token] written as a YAML integer, no [host] section. *)
Definition integer_token_yaml : config_file :=
  Parsed (VDict [ (VStr "esp", VDict [ (VStr "token", VInt 123) ]) ]).

Definition integer_token_loaded : globals :=
  {| CFG := match integer_token_yaml with Parsed v => v | _ => VNone end;
     SECRET_TOKEN := "123";
     HOST_CFG := VDict [];
     LISTEN_PORT := 8888;
     ALLOWED_IPS := VList [] |}.

End Sample.

(* ================================================================= *)
(** ** Lemmas on the Python fragment *)

Lemma truthy_str_iff (s : string) : truthy (VStr s) = true <-> s <> EmptyString.
Proof.
  destruct s; simpl; split; intro H; try discriminate; try reflexivity.
  now contradiction H.
Qed.

Lemma truthy_str_false (s : string) : truthy (VStr s) = false <-> s = EmptyString.
Proof.
  destruct s; simpl; split; intro H; try discriminate; reflexivity.
Qed.

Lemma existsb_str_eq (s : string) (l : list value) :
  existsb (str_eq s) l = true <-> In (VStr s) l.
Proof.
  rewrite existsb_exists. split.
  - intros [v [Hin Heq]]. destruct v; simpl in Heq; try discriminate.
    apply String.eqb_eq in Heq. now subst.
  - intro Hin. exists (VStr s). split; [assumption | apply String.eqb_refl].
Qed.

Lemma or_empty_list (v : value) :
  truthy v = false -> or_ v (VList []) = VList [].
Proof. intro H. unfold or_. now rewrite H. Qed.

Lemma or_truthy (v w : value) : truthy v = true -> or_ v w = v.
Proof. intro H. unfold or_. now rewrite H. Qed.

(** The builtins on a few inputs. *)

Example str_of_list :
  str (VList [VStr "a'b"; VInt (-12); VNone; VDict [(VStr "k", VBool true)]])
  = "[" ++ char dquote ++ "a'b" ++ char dquote ++ ", -12, None, {'k': True}]".
Proof. reflexivity. Qed.

Example str_of_scalars :
  str (VInt 123) = "123" /\ str VNone = "None" /\ str (VBool true) = "True"
  /\ str (VStr "abc123 ") = "abc123 ".
Proof. repeat split. Qed.

Example int_of_padded_text : int (VStr "  -8_888 ") = Ok (-8888).
Proof. reflexivity. Qed.

Example int_of_bad_text :
  int_of_str "8__8" = None /\ int_of_str "- 8" = None /\ int_of_str "+08" = Some 8.
Proof. repeat split. Qed.

Example in_on_text : contains "192.168.1.1" (VStr "192.168.1.10") = Ok true.
Proof. reflexivity. Qed.

Example in_on_list :
  contains "192.168.1.1" (VList [VStr "192.168.1.10"; VInt 5]) = Ok false.
Proof. reflexivity. Qed.

(** The sample configurations load into the sample globals. *)

Example device_yaml_loads : module_init Sample.device_yaml = Ok Sample.loaded.
Proof. reflexivity. Qed.

Example device_yaml_serves :
  run_script Sample.device_yaml
  = Serving Sample.loaded {| bind_host := "0.0.0.0"; bind_port := 8888 |}.
Proof. reflexivity. Qed.

Example empty_document_crashes : run_script (Parsed VNone) = Exited 1.
Proof. reflexivity. Qed.

Example missing_token_exits :
  run_script (Parsed (VDict [(VStr "host", VDict [(VStr "port", VInt 8888)])])) = Exited 1.
Proof. reflexivity. Qed.

Example sleep_on_linux :
  serve Sample.loaded (Power Sleep) Sample.good_request Sample.linux []
  = (success, [Called Sleep; Spawned ["systemctl"; "suspend"]]).
Proof. reflexivity. Qed.

Example sleep_on_freebsd :
  serve Sample.loaded (Power Sleep) Sample.good_request Sample.freebsd []
  = (failure, [Called Sleep]).
Proof. reflexivity. Qed.

Example restart_without_systemctl :
  serve Sample.loaded (Power Restart) Sample.good_request Sample.broken_linux []
  = (failure,
     [Called Restart;
      LoggedError "restart failed: [Errno 2] No such file or directory: 'systemctl'"]).
Proof. reflexivity. Qed.

Example upper_case_token_refused :
  serve Sample.loaded (Power Sleep)
    {| remote_addr := "192.168.1.50"; args := [("token", "ABC123 ")] |} Sample.linux []
  = (unauthorized, []).
Proof. reflexivity. Qed.

(* ================================================================= *)
(** ** What the dispatchers and the routes compute *)

Lemma native_command_recognized (a : action) (os : string) :
  native_command a os <> None <-> In os recognized.
Proof.
  unfold native_command, recognized.
  destruct (String.eqb_spec os "Windows") as [-> | HW]; [split; [simpl; auto | discriminate] |].
  destruct (String.eqb_spec os "Linux") as [-> | HL]; [split; [simpl; auto | discriminate] |].
  destruct (String.eqb_spec os "Darwin") as [-> | HD]; [split; [simpl; auto | discriminate] |].
  split; [congruence |].
  simpl. intros [H | [H | [H | []]]]; congruence.
Qed.

(** One equation for the three dispatchers. *)
Lemma dispatcher_eq (a : action) (h : host) (tr : trace) :
  dispatcher a h tr =
  match native_command a (system h) with
  | None => (Ok false, (tr ++ [Called a])%list)
  | Some argv =>
      match launch h argv with
      | None => (Ok true, ((tr ++ [Called a]) ++ [Spawned argv])%list)
      | Some msg =>
          (Ok false, ((tr ++ [Called a]) ++ [LoggedError (verb a ++ " failed: " ++ msg)])%list)
      end
  end.
Proof.
  unfold native_command.
  destruct a; cbv [dispatcher sleep_computer shutdown_computer restart_computer
                   mbind ret io_monad io_bind io_ret emit try_except platform_system
                   subprocess_Popen logger_error];
    repeat match goal with
      | |- context [String.eqb (system h) ?os] => destruct (String.eqb (system h) os)
      end;
    try reflexivity;
    match goal with
    | |- context [launch h ?argv] => destruct (launch h argv); reflexivity
    end.
Qed.

(** One equation for the three privileged routes. *)
Lemma view_power_eq (g : globals) (a : action) (req : request) (h : host) (tr : trace) :
  view g (Power a) req h tr =
  match _authorized_client g (remote_addr req) with
  | Raise e => (Raise e, tr)
  | Ok false => (Ok forbidden, tr)
  | Ok true =>
      if _check_token g (supplied_token req) then
        match dispatcher a h tr with
        | (Ok ok, tr') => (Ok (if ok then success else failure), tr')
        | (Raise e, tr') => (Raise e, tr')
        end
      else (Ok unauthorized, tr)
  end.
Proof.
  destruct a; cbv [view route_sleep route_shutdown route_restart dispatcher supplied_token
                   mbind ret io_monad io_bind io_ret lift];
    (destruct (_authorized_client g (remote_addr req)) as [[|]|]; simpl; try reflexivity;
     destruct (_check_token g _); simpl; reflexivity).
Qed.

(** The answer of a privileged route in terms of the gate decision. *)
Lemma serve_power_eq (g : globals) (a : action) (req : request) (h : host) (tr : trace) :
  serve g (Power a) req h tr =
  match gates g req with
  | GateRaised _ => (error_page, tr)
  | Denied403 => (forbidden, tr)
  | Denied401 => (unauthorized, tr)
  | Passed =>
      match dispatcher a h tr with
      | (Ok ok, tr') => (if ok then success else failure, tr')
      | (Raise _, tr') => (error_page, tr')
      end
  end.
Proof.
  unfold serve, gates. rewrite view_power_eq.
  destruct (_authorized_client g (remote_addr req)) as [[|]|]; try reflexivity.
  destruct (_check_token g (supplied_token req)); try reflexivity.
  destruct (dispatcher a h tr) as [[ok|e] tr']; reflexivity.
Qed.

(** A dispatcher always returns a boolean. *)
Lemma dispatcher_returns (a : action) (h : host) (tr : trace) :
  exists ok tr', dispatcher a h tr = (Ok ok, tr').
Proof.
  rewrite dispatcher_eq.
  destruct (native_command a (system h)) as [argv|]; [destruct (launch h argv) |];
    eauto.
Qed.

Lemma check_token_iff (g : globals) (t : string) :
  _check_token g t = true <-> SECRET_TOKEN g <> EmptyString /\ t = SECRET_TOKEN g.
Proof.
  unfold _check_token. rewrite andb_true_iff, truthy_str_iff, String.eqb_eq. tauto.
Qed.

Lemma calls_app (tr1 tr2 : trace) : calls (tr1 ++ tr2)%list = (calls tr1 ++ calls tr2)%list.
Proof.
  induction tr1 as [|e tr1 IH]; [reflexivity |].
  destruct e; simpl; now rewrite IH.
Qed.

(** A dispatcher records exactly one invocation, its own. *)
Lemma dispatcher_calls (a : action) (h : host) (tr : trace) :
  calls (snd (dispatcher a h tr)) = (calls tr ++ [a])%list.
Proof.
  rewrite dispatcher_eq.
  destruct (native_command a (system h)) as [argv|]; [destruct (launch h argv) |];
    simpl; repeat rewrite calls_app; simpl; now rewrite ?app_nil_r.
Qed.

(* ================================================================= *)
(** ** The token gate *)

(** C1.  On a privileged route, a request whose caller address passes the
    IP gate is answered 401 [{status: error, message: Unauthorized}]
    exactly when it is not the case that the configured secret is
    non-empty and the supplied [token] parameter is equal to it, character
    for character.  In particular the token [abc123] is refused when the
    secret is [abc123] followed by a space. *)
Theorem token_gate_exact_match
  (g : globals) (a : action) (req : request) (h : host) (tr : trace) :
  _authorized_client g (remote_addr req) = Ok true ->
  (~ (SECRET_TOKEN g <> EmptyString /\ supplied_token req = SECRET_TOKEN g) <->
   serve g (Power a) req h tr =
     ({| body := Json [("status", JStr "error"); ("message", JStr "Unauthorized")];
         status_code := 401 |}, tr))
  /\ (SECRET_TOKEN g = "abc123 " -> supplied_token req = "abc123" ->
      serve g (Power a) req h tr =
        ({| body := Json [("status", JStr "error"); ("message", JStr "Unauthorized")];
            status_code := 401 |}, tr)).
Proof.
  intro Hip.
  assert (Hserve : serve g (Power a) req h tr =
                   if _check_token g (supplied_token req)
                   then match dispatcher a h tr with
                        | (Ok ok, tr') => (if ok then success else failure, tr')
                        | (Raise _, tr') => (error_page, tr')
                        end
                   else (unauthorized, tr)).
  { rewrite serve_power_eq. unfold gates. rewrite Hip.
    now destruct (_check_token g (supplied_token req)). }
  assert (Hiff : ~ (SECRET_TOKEN g <> EmptyString /\ supplied_token req = SECRET_TOKEN g) <->
                 serve g (Power a) req h tr = (unauthorized, tr)).
  { rewrite Hserve, <- check_token_iff.
    destruct (_check_token g (supplied_token req)).
    - split; [intro H; now contradiction H |].
      destruct (dispatcher_returns a h tr) as [ok [tr' ->]].
      destruct ok; discriminate.
    - split; [reflexivity | discriminate]. }
  split; [exact Hiff |].
  intros Hsecret Htoken. apply Hiff. intros [_ Heq].
  rewrite Hsecret, Htoken in Heq. discriminate.
Qed.

Lemma token_gate_exact_match_witness :
  _authorized_client Sample.loaded (remote_addr Sample.trimmed_request) = Ok true
  /\ serve Sample.loaded (Power Sleep) Sample.trimmed_request Sample.linux [] =
       ({| body := Json [("status", JStr "error"); ("message", JStr "Unauthorized")];
           status_code := 401 |}, []).
Proof.
  split; [reflexivity |].
  apply (token_gate_exact_match Sample.loaded Sleep Sample.trimmed_request Sample.linux []);
    reflexivity.
Defined.

(* ================================================================= *)
(** ** The IP gate *)

(** The gate in the general case: whatever truthy value the allowlist
    holds, a caller the [in] test rejects is answered 403. *)
Lemma ip_gate_rejects (g : globals) (a : action) (req : request) (h : host) (tr : trace) :
  truthy (ALLOWED_IPS g) = true ->
  contains (remote_addr req) (ALLOWED_IPS g) = Ok false ->
  serve g (Power a) req h tr = (forbidden, tr).
Proof.
  intros Htruthy Hin. rewrite serve_power_eq. unfold gates, _authorized_client.
  rewrite Htruthy. simpl. now rewrite Hin.
Qed.

(** C2.  On a privileged route, a request from a caller address that is
    not a member of a non-empty allowlist is answered 403
    [{status: error, message: Forbidden: IP not allowed}], whatever token
    it carries; and with an empty allowlist every caller address passes
    the IP gate. *)
Theorem ip_gate_allowlist
  (g : globals) (a : action) (req : request) (h : host) (tr : trace) :
  (forall l : list value,
      ALLOWED_IPS g = VList l -> l <> [] -> ~ In (VStr (remote_addr req)) l ->
      serve g (Power a) req h tr =
        ({| body := Json [("status", JStr "error");
                          ("message", JStr "Forbidden: IP not allowed")];
            status_code := 403 |}, tr))
  /\ (ALLOWED_IPS g = VList [] ->
      forall ip : string, _authorized_client g ip = Ok true).
Proof.
  split.
  - intros l Hl Hne Hnotin.
    apply ip_gate_rejects; rewrite Hl.
    + destruct l; [now contradiction Hne | reflexivity].
    + simpl. f_equal. apply not_true_is_false. now rewrite existsb_str_eq.
  - intros Hl ip. unfold _authorized_client. now rewrite Hl.
Qed.

Lemma ip_gate_allowlist_witness :
  serve Sample.loaded (Power Shutdown) Sample.stranger_request Sample.linux [] =
    ({| body := Json [("status", JStr "error");
                      ("message", JStr "Forbidden: IP not allowed")];
        status_code := 403 |}, [])
  /\ _authorized_client Sample.open_to_all "10.0.0.7" = Ok true.
Proof.
  split.
  - apply (proj1 (ip_gate_allowlist Sample.loaded Shutdown Sample.stranger_request
                    Sample.linux []) [VStr "192.168.1.50"]).
    + reflexivity.
    + discriminate.
    + simpl. intros [H | []]. discriminate.
  - apply (proj2 (ip_gate_allowlist Sample.open_to_all Shutdown Sample.stranger_request
                    Sample.linux [])).
    reflexivity.
Defined.

(* ================================================================= *)
(** ** Dispatch *)

(** C3.  On a privileged route, a request whose caller address passes the
    IP gate and whose token is equal to the non-empty secret makes the
    handler invoke the dispatcher of its action exactly once, and is
    answered 200 [{status: success}] when the dispatcher reports success,
    which it does when the OS family is recognized and the launch of the
    command does not raise. *)
Theorem authorized_request_dispatches_once
  (g : globals) (a : action) (req : request) (h : host) (tr : trace) :
  _authorized_client g (remote_addr req) = Ok true ->
  SECRET_TOKEN g <> EmptyString ->
  supplied_token req = SECRET_TOKEN g ->
  calls (snd (serve g (Power a) req h tr)) = (calls tr ++ [a])%list
  /\ (fst (dispatcher a h tr) = Ok true ->
      fst (serve g (Power a) req h tr) =
        {| body := Json [("status", JStr "success")]; status_code := 200 |})
  /\ (In (system h) recognized -> launched a h -> fst (dispatcher a h tr) = Ok true).
Proof.
  intros Hip Hne Htok.
  assert (Hcheck : _check_token g (supplied_token req) = true)
    by (apply check_token_iff; split; assumption).
  assert (Hserve : serve g (Power a) req h tr =
                   match dispatcher a h tr with
                   | (Ok ok, tr') => (if ok then success else failure, tr')
                   | (Raise _, tr') => (error_page, tr')
                   end).
  { rewrite serve_power_eq. unfold gates. now rewrite Hip, Hcheck. }
  rewrite Hserve. clear Hserve.
  split; [| split].
  - rewrite <- dispatcher_calls with (h := h).
    destruct (dispatcher_returns a h tr) as [ok [tr' ->]]. reflexivity.
  - destruct (dispatcher_returns a h tr) as [ok [tr' ->]]. simpl.
    intro Hok. injection Hok as ->. reflexivity.
  - intros _ [argv [Hcmd Hlaunch]]. rewrite dispatcher_eq, Hcmd, Hlaunch. reflexivity.
Qed.

Lemma authorized_request_dispatches_once_witness :
  calls (snd (serve Sample.loaded (Power Sleep) Sample.good_request Sample.linux
                [Called Restart])) = [Restart; Sleep]
  /\ fst (serve Sample.loaded (Power Sleep) Sample.good_request Sample.linux
            [Called Restart]) =
       {| body := Json [("status", JStr "success")]; status_code := 200 |}.
Proof.
  pose proof (authorized_request_dispatches_once Sample.loaded Sleep Sample.good_request
                Sample.linux [Called Restart]) as H.
  destruct H as [Hcalls [Hok _]].
  - reflexivity.
  - discriminate.
  - reflexivity.
  - split; [exact Hcalls | apply Hok; reflexivity].
Defined.

(** C4.  Each dispatcher returns a boolean and never raises.  The boolean
    is true exactly when the OS family is one of Windows, Linux and Darwin
    and the launch of the command did not raise.  When the launch raises,
    the error is logged.  A false result becomes 500 [{status: error}] on
    the route. *)
Theorem dispatcher_reports_launch (a : action) (h : host) (tr : trace) :
  exists (ok : bool) (tr' : trace),
    dispatcher a h tr = (Ok ok, tr')
    /\ (ok = true <-> In (system h) recognized /\ launched a h)
    /\ (~ In (system h) recognized -> ok = false)
    /\ (forall argv msg,
          native_command a (system h) = Some argv -> launch h argv = Some msg ->
          ok = false
          /\ tr' = (tr ++ [Called a; LoggedError (verb a ++ " failed: " ++ msg)])%list)
    /\ (forall g req,
          gates g req = Passed -> ok = false ->
          serve g (Power a) req h tr =
            ({| body := Json [("status", JStr "error")]; status_code := 500 |}, tr')).
Proof.
  pose proof (native_command_recognized a (system h)) as Hrec.
  pose proof (dispatcher_eq a h tr) as Heq.
  unfold launched.
  destruct (native_command a (system h)) as [argv|] eqn:Hcmd.
  - assert (Hin : In (system h) recognized) by (apply Hrec; discriminate).
    destruct (launch h argv) as [msg|] eqn:Hlaunch.
    + exists false, (tr ++ [Called a; LoggedError (verb a ++ " failed: " ++ msg)])%list.
      split; [rewrite Heq, <- app_assoc; reflexivity |].
      split; [split; [discriminate |] |].
      { intros [_ [argv' [Hc Hl]]]. injection Hc as <-. congruence. }
      split; [reflexivity |].
      split.
      { intros argv' msg' Hc Hl. injection Hc as <-.
        rewrite Hlaunch in Hl. injection Hl as <-. split; reflexivity. }
      intros g req Hgate _. rewrite serve_power_eq, Hgate, Heq, <- app_assoc. reflexivity.
    + exists true, (tr ++ [Called a; Spawned argv])%list.
      split; [rewrite Heq, <- app_assoc; reflexivity |].
      split; [split; [intros _; split; [exact Hin | eauto] | reflexivity] |].
      split; [intro Hn; now contradiction Hn |].
      split.
      { intros argv' msg' Hc Hl. injection Hc as <-. congruence. }
      intros g req _ Hfalse. discriminate.
  - assert (Hnin : ~ In (system h) recognized) by (intro Hin; apply Hrec in Hin; congruence).
    exists false, (tr ++ [Called a])%list.
    split; [exact Heq |].
    split; [split; [discriminate | intros [Hin _]; now contradiction Hnin] |].
    split; [reflexivity |].
    split; [intros argv msg Hc; discriminate |].
    intros g req Hgate _. rewrite serve_power_eq, Hgate, Heq. reflexivity.
Qed.

Lemma dispatcher_reports_launch_witness :
  dispatcher Shutdown Sample.broken_linux [] =
    (Ok false,
     [Called Shutdown;
      LoggedError "shutdown failed: [Errno 2] No such file or directory: 'systemctl'"])
  /\ fst (serve Sample.loaded (Power Shutdown) Sample.good_request Sample.broken_linux []) =
       {| body := Json [("status", JStr "error")]; status_code := 500 |}.
Proof.
  destruct (dispatcher_reports_launch Shutdown Sample.broken_linux [])
    as [ok [tr' [Heq [_ [_ [Hlog H500]]]]]].
  destruct (Hlog ["systemctl"; "poweroff"]
              "[Errno 2] No such file or directory: 'systemctl'" eq_refl eq_refl)
    as [Hok Htr].
  split.
  - rewrite Heq, Hok, Htr. reflexivity.
  - rewrite (H500 Sample.loaded Sample.good_request eq_refl Hok). reflexivity.
Defined.

(* ================================================================= *)
(** ** Start-up *)

(** What a successful execution of the module body has established. *)
Lemma module_init_inv (f : config_file) (g : globals) :
  module_init f = Ok g ->
  exists cfg esp token host_cfg port allowed,
    f = Parsed cfg
    /\ get cfg "esp" (VDict []) = Ok esp
    /\ get esp "token" (VStr EmptyString) = Ok token
    /\ get cfg "host" (VDict []) = Ok host_cfg
    /\ get host_cfg "port" (VInt 8888) = Ok port
    /\ get host_cfg "allowed_ips" (VList []) = Ok allowed
    /\ CFG g = cfg
    /\ SECRET_TOKEN g = str token
    /\ HOST_CFG g = host_cfg
    /\ int port = Ok (LISTEN_PORT g)
    /\ ALLOWED_IPS g = or_ allowed (VList []).
Proof.
  unfold module_init, load_config. cbn [mbind ret result_monad].
  destruct f as [|msg|cfg]; simpl; try discriminate.
  destruct (get cfg "esp" (VDict [])) as [esp|] eqn:Hesp; simpl; try discriminate.
  destruct (get esp "token" (VStr EmptyString)) as [token|] eqn:Htoken; simpl; try discriminate.
  destruct (get cfg "host" (VDict [])) as [host_cfg|] eqn:Hhost; simpl; try discriminate.
  destruct (get host_cfg "port" (VInt 8888)) as [port|] eqn:Hport; simpl; try discriminate.
  destruct (int port) as [listen_port|] eqn:Hint; simpl; try discriminate.
  destruct (get host_cfg "allowed_ips" (VList [])) as [allowed|] eqn:Hallowed; simpl;
    try discriminate.
  intro H. injection H as <-.
  exists cfg, esp, token, host_cfg, port, allowed. simpl. repeat split; assumption.
Qed.

(** C5.  A run of the script on a missing config file, or on a config
    whose resolved secret is empty, ends with exit status 1 without
    reaching [app.run]; a process that is serving has found its config
    file and holds a non-empty secret. *)
Theorem startup_needs_config_and_secret (f : config_file) :
  (f = Absent -> run_script f = Exited 1)
  /\ (forall g : globals,
        module_init f = Ok g -> SECRET_TOKEN g = EmptyString -> run_script f = Exited 1)
  /\ (forall (g : globals) (l : listener),
        run_script f = Serving g l ->
        f <> Absent /\ module_init f = Ok g /\ SECRET_TOKEN g <> EmptyString).
Proof.
  split; [| split].
  - intros ->. reflexivity.
  - intros g Hinit Hempty. unfold run_script, main. rewrite Hinit, Hempty. reflexivity.
  - intros g l. unfold run_script, main.
    destruct (module_init f) as [g'|e] eqn:Hinit; [| discriminate].
    destruct (truthy (VStr (SECRET_TOKEN g'))) eqn:Htruthy; simpl; [| discriminate].
    intro H. injection H as <- _.
    split; [| split; [reflexivity | now apply truthy_str_iff]].
    intros ->. discriminate.
Qed.

(** The resolved secret is empty only for an absent or empty [esp.token]:
    [str] of anything but the empty string is not empty. *)
Lemma decimal_not_empty (n : Z) : decimal n <> EmptyString.
Proof.
  unfold decimal. destruct (Z.to_int n) as [d|d]; simpl; [| discriminate].
  destruct d; discriminate.
Qed.


Lemma startup_needs_config_and_secret_witness :
  run_script Absent = Exited 1
  /\ run_script (Parsed (VDict [(VStr "esp", VDict [(VStr "token", VStr EmptyString)])]))
     = Exited 1
  /\ SECRET_TOKEN Sample.loaded <> EmptyString.
Proof.
  split; [| split].
  - apply (proj1 (startup_needs_config_and_secret Absent)). reflexivity.
  - apply (proj1 (proj2 (startup_needs_config_and_secret
                           (Parsed (VDict [(VStr "esp",
                                            VDict [(VStr "token", VStr EmptyString)])]))))
             {| CFG := VDict [(VStr "esp", VDict [(VStr "token", VStr EmptyString)])];
                SECRET_TOKEN := EmptyString;
                HOST_CFG := VDict [];
                LISTEN_PORT := 8888;
                ALLOWED_IPS := VList [] |});
      reflexivity.
  - apply (proj2 (proj2 (startup_needs_config_and_secret Sample.device_yaml))
             Sample.loaded {| bind_host := "0.0.0.0"; bind_port := 8888 |}).
    reflexivity.
Defined.

(* ================================================================= *)
(** ** Status *)

(** C6.  [/status] is answered 200 with the object
    [{status, hostname, os, os_version, port, uptime}] for every request
    and every configuration: neither the caller address nor a token is
    looked at, and nothing is dispatched.  [status] is the marker
    [running], [port] the configured listen port; these two, the host name
    and the two OS strings are the five fields that do not move with the
    clock. *)
Theorem status_is_open (g : globals) (req : request) (h : host) (tr : trace) :
  serve g Status req h tr =
    ({| body := Json [ ("status", JStr "running");
                       ("hostname", JStr (node h));
                       ("os", JStr (system h));
                       ("os_version", JStr (version h));
                       ("port", JInt (LISTEN_PORT g));
                       ("uptime", JInt (int_of_float (time h))) ];
        status_code := 200 |}, tr)
  /\ forall (req' : request) (t : Q) (tr' : trace) (k : string),
       In k ["status"; "hostname"; "os"; "os_version"; "port"] ->
       field k (fst (serve g Status req' (at_time h t) tr')) =
       field k (fst (serve g Status req h tr)).
Proof.
  split; [reflexivity |].
  intros req' t tr' k Hk. simpl in Hk.
  destruct Hk as [<- | [<- | [<- | [<- | [<- | []]]]]]; reflexivity.
Qed.

Lemma status_is_open_witness :
  serve Sample.loaded Status Sample.stranger_request Sample.linux [] =
    ({| body := Json [ ("status", JStr "running");
                       ("hostname", JStr "nas");
                       ("os", JStr "Linux");
                       ("os_version", JStr "#1 SMP");
                       ("port", JInt 8888);
                       ("uptime", JInt 1700000000) ];
        status_code := 200 |}, []).
Proof.
  exact (proj1 (status_is_open Sample.loaded Sample.stranger_request Sample.linux [])).
Defined.

(* ================================================================= *)
(** ** The uptime field *)

Lemma int_of_float_nonneg (x : Q) :
  (0 <= x)%Q -> int_of_float x = Qnum x / Z.pos (Qden x).
Proof.
  unfold Qle, int_of_float. simpl. intro H.
  apply Z.quot_div_nonneg; lia.
Qed.

(** For a time after the epoch, truncation yields the whole seconds. *)
Lemma int_of_float_whole_seconds (x : Q) :
  (0 <= x)%Q ->
  (inject_Z (int_of_float x) <= x)%Q /\ (x < inject_Z (int_of_float x) + 1)%Q.
Proof.
  intro H. rewrite (int_of_float_nonneg x H).
  destruct x as [a b]. unfold Qle, Qlt, Qplus, inject_Z in *. simpl in *.
  pose proof (Z.div_mod a (Z.pos b) ltac:(lia)) as Hdm.
  pose proof (Z.mod_pos_bound a (Z.pos b) ltac:(lia)) as Hmod.
  split; nia.
Qed.

(** Elapsed time since a start at least one second after the epoch falls
    short of the epoch time by at least a second. *)
Lemma int_of_float_elapsed (now started : Q) :
  (1 <= started)%Q -> (started <= now)%Q ->
  int_of_float (now - started) <= int_of_float now - 1.
Proof.
  intros H1 Hle.
  assert (Hnow : (0 <= now)%Q).
  { apply Qle_trans with started; [| assumption].
    apply Qle_trans with 1%Q; [discriminate | assumption]. }
  assert (Hdiff : (0 <= now - started)%Q).
  { setoid_replace 0%Q with (started - started)%Q by ring.
    apply Qplus_le_l. assumption. }
  rewrite (int_of_float_nonneg _ Hnow), (int_of_float_nonneg _ Hdiff).
  destruct now as [a b], started as [c d].
  unfold Qle, Qminus, Qplus, Qopp in *. simpl in *.
  assert (Hb : 0 < Z.pos b) by lia.
  assert (Hd : 0 < Z.pos d) by lia.
  replace (a / Z.pos b - 1) with ((a - Z.pos b) / Z.pos b).
  2:{ replace (a - Z.pos b) with (a + (-1) * Z.pos b) by ring.
      rewrite Z.div_add by lia. ring. }
  rewrite <- (Z.div_mul_cancel_r (a - Z.pos b) (Z.pos b) (Z.pos d)) by lia.
  rewrite Pos2Z.inj_mul.
  apply Z.div_le_mono; nia.
Qed.

(** C7.  The [uptime] field of the [/status] answer is the reading of the
    wall clock at the request, truncated to an integer: the whole seconds
    since the epoch.  It is not the time elapsed since the process
    started, whenever that was (at least a second after the epoch). *)
Theorem uptime_is_epoch_seconds
  (g : globals) (req : request) (h : host) (tr : trace) (started : Q) :
  (1 <= started)%Q -> (started <= time h)%Q ->
  field "uptime" (fst (serve g Status req h tr)) = Some (JInt (int_of_float (time h)))
  /\ (inject_Z (int_of_float (time h)) <= time h)%Q
  /\ (time h < inject_Z (int_of_float (time h)) + 1)%Q
  /\ field "uptime" (fst (serve g Status req h tr))
     <> Some (JInt (int_of_float (time h - started))).
Proof.
  intros H1 Hle.
  assert (Hnow : (0 <= time h)%Q).
  { apply Qle_trans with started; [| assumption].
    apply Qle_trans with 1%Q; [discriminate | assumption]. }
  destruct (int_of_float_whole_seconds (time h) Hnow) as [Hlo Hhi].
  pose proof (int_of_float_elapsed (time h) started H1 Hle) as Hel.
  repeat split; try assumption.
  change (field "uptime" (fst (serve g Status req h tr)))
    with (Some (JInt (int_of_float (time h)))).
  intro H. injection H as H. lia.
Qed.

Lemma uptime_is_epoch_seconds_witness :
  field "uptime" (fst (serve Sample.loaded Status Sample.good_request Sample.linux []))
  = Some (JInt 1700000000)
  /\ field "uptime" (fst (serve Sample.loaded Status Sample.good_request Sample.linux []))
     <> Some (JInt (int_of_float (time Sample.linux - 1699999000))).
Proof.
  destruct (uptime_is_epoch_seconds Sample.loaded Sample.good_request Sample.linux []
              1699999000%Q) as [Hfield [_ [_ Hne]]].
  - discriminate.
  - discriminate.
  - split; [exact Hfield | exact Hne].
Defined.

(* ================================================================= *)
(** ** Determinism of the privileged routes *)

Lemma dispatcher_result_ext (a : action) (h1 h2 : host) (tr1 tr2 : trace) :
  system h1 = system h2 ->
  (forall argv, launch h1 argv = launch h2 argv) ->
  fst (dispatcher a h1 tr1) = fst (dispatcher a h2 tr2).
Proof.
  intros Hsys Hlaunch. rewrite !dispatcher_eq, Hsys.
  destruct (native_command a (system h2)) as [argv|]; [| reflexivity].
  rewrite Hlaunch. destruct (launch h2 argv); reflexivity.
Qed.

(** C8.  Under one loaded configuration, two requests to a privileged
    route that agree on the caller address and on the supplied token get
    the same gate decision and, when a gate refuses them, the same answer,
    whatever else differs between them (other query parameters, the
    moment, what happened before).  On hosts that agree on the OS family
    and on the fate of launches, the whole answer is the same. *)
Theorem privileged_answer_is_function_of_address_and_token
  (g : globals) (a : action) (r1 r2 : request) (h1 h2 : host) (tr1 tr2 : trace) :
  remote_addr r1 = remote_addr r2 ->
  supplied_token r1 = supplied_token r2 ->
  gates g r1 = gates g r2
  /\ (gates g r1 <> Passed ->
      fst (serve g (Power a) r1 h1 tr1) = fst (serve g (Power a) r2 h2 tr2))
  /\ (system h1 = system h2 -> (forall argv, launch h1 argv = launch h2 argv) ->
      fst (serve g (Power a) r1 h1 tr1) = fst (serve g (Power a) r2 h2 tr2)).
Proof.
  intros Hip Htok.
  assert (Hgates : gates g r1 = gates g r2)
    by (unfold gates; now rewrite Hip, Htok).
  split; [exact Hgates |].
  rewrite !serve_power_eq, <- Hgates.
  split.
  - intro Hfail. destruct (gates g r1); try reflexivity. now contradiction Hfail.
  - intros Hsys Hlaunch.
    destruct (gates g r1); try reflexivity.
    pose proof (dispatcher_result_ext a h1 h2 tr1 tr2 Hsys Hlaunch) as Hres.
    destruct (dispatcher_returns a h1 tr1) as [ok1 [tr1' E1]].
    destruct (dispatcher_returns a h2 tr2) as [ok2 [tr2' E2]].
    rewrite E1, E2 in *. simpl in Hres. injection Hres as ->. reflexivity.
Qed.

Lemma privileged_answer_is_function_of_address_and_token_witness :
  gates Sample.loaded Sample.trimmed_request
  = gates Sample.loaded
      {| remote_addr := "192.168.1.50"; args := [("verbose", "1"); ("token", "abc123")] |}
  /\ fst (serve Sample.loaded (Power Restart) Sample.trimmed_request Sample.linux [])
     = fst (serve Sample.loaded (Power Restart)
              {| remote_addr := "192.168.1.50";
                 args := [("verbose", "1"); ("token", "abc123")] |}
              Sample.freebsd [Called Sleep]).
Proof.
  destruct (privileged_answer_is_function_of_address_and_token
              Sample.loaded Restart Sample.trimmed_request
              {| remote_addr := "192.168.1.50";
                 args := [("verbose", "1"); ("token", "abc123")] |}
              Sample.linux Sample.freebsd [] [Called Sleep])
    as [Hgates [Hfail _]].
  - reflexivity.
  - reflexivity.
  - split; [exact Hgates | apply Hfail; discriminate].
Defined.

(* ================================================================= *)
(** ** Normalisation of the allowlist and of the secret *)

(** After start-up the allowlist is a truthy value or the empty list. *)
Lemma allowlist_normalised (f : config_file) (g : globals) :
  module_init f = Ok g ->
  truthy (ALLOWED_IPS g) = true \/ ALLOWED_IPS g = VList [].
Proof.
  intro Hinit.
  destruct (module_init_inv f g Hinit)
    as (cfg & esp & token & host_cfg & port & allowed & _ & _ & _ & _ & _ & _ & _ & _ & _ & _ & Hal).
  rewrite Hal. unfold or_. destruct (truthy allowed) eqn:Ht; [left; exact Ht | now right].
Qed.

(** C9.  When [host.allowed_ips] is present in the configuration with a
    falsy value ([None], [False], [0], an empty string, list or mapping),
    the allowlist the process holds is the empty list and every caller
    address passes the IP gate; the same holds when the key is absent. *)
Theorem falsy_allowlist_allows_all
  (f : config_file) (g : globals) (host_items : list (value * value)) :
  module_init f = Ok g ->
  HOST_CFG g = VDict host_items ->
  (lookup "allowed_ips" host_items = None
   \/ exists v, lookup "allowed_ips" host_items = Some v /\ truthy v = false) ->
  ALLOWED_IPS g = VList []
  /\ forall ip : string, _authorized_client g ip = Ok true.
Proof.
  intros Hinit Hhost Hkey.
  destruct (module_init_inv f g Hinit)
    as (cfg & esp & token & host_cfg & port & allowed
        & _ & _ & _ & _ & _ & Hget & _ & _ & Hh & _ & Hal).
  assert (Hempty : ALLOWED_IPS g = VList []).
  { rewrite Hal. rewrite <- Hh, Hhost in Hget. simpl in Hget.
    destruct Hkey as [Hnone | [v [Hsome Hfalsy]]].
    - rewrite Hnone in Hget. injection Hget as <-. reflexivity.
    - rewrite Hsome in Hget. injection Hget as <-. now apply or_empty_list. }
  split; [exact Hempty |].
  intro ip. unfold _authorized_client. now rewrite Hempty.
Qed.

Lemma falsy_allowlist_allows_all_witness :
  module_init Sample.null_allowlist_yaml = Ok Sample.null_allowlist_loaded
  /\ ALLOWED_IPS Sample.null_allowlist_loaded = VList []
  /\ _authorized_client Sample.null_allowlist_loaded "10.0.0.7" = Ok true.
Proof.
  split; [reflexivity |].
  destruct (falsy_allowlist_allows_all Sample.null_allowlist_yaml
              Sample.null_allowlist_loaded
              [ (VStr "port", VStr "9000"); (VStr "allowed_ips", VNone) ])
    as [Hempty Hall].
  - reflexivity.
  - reflexivity.
  - right. exists VNone. split; reflexivity.
  - split; [exact Hempty | apply Hall].
Defined.

(** C10.  The secret the process holds is [str] of the [esp.token] value
    of the configuration, and the token gate compares the supplied token
    with that rendering: a YAML integer [n] is matched by its decimal
    numeral, so the request token [123] matches the integer token 123. *)
Theorem secret_is_str_of_token
  (f : config_file) (g : globals) (esp_items : list (value * value)) (v : value) :
  module_init f = Ok g ->
  get (CFG g) "esp" (VDict []) = Ok (VDict esp_items) ->
  lookup "token" esp_items = Some v ->
  SECRET_TOKEN g = str v
  /\ (forall t : string, _check_token g t = true <-> str v <> EmptyString /\ t = str v)
  /\ (forall n : Z, v = VInt n -> _check_token g (decimal n) = true)
  /\ (v = VInt 123 -> _check_token g "123" = true).
Proof.
  intros Hinit Hesp Htoken.
  destruct (module_init_inv f g Hinit)
    as (cfg & esp & token & host_cfg & port & allowed
        & _ & Hget_esp & Hget_token & _ & _ & _ & Hcfg & Hsecret & _).
  assert (Hstr : SECRET_TOKEN g = str v).
  { rewrite Hsecret. f_equal.
    rewrite Hcfg, Hget_esp in Hesp. injection Hesp as ->.
    simpl in Hget_token. rewrite Htoken in Hget_token. now injection Hget_token. }
  assert (Hcheck : forall t, _check_token g t = true <-> str v <> EmptyString /\ t = str v).
  { intro t. rewrite check_token_iff, Hstr. reflexivity. }
  assert (Hint : forall n, v = VInt n -> _check_token g (decimal n) = true).
  { intros n ->. apply Hcheck. simpl. split; [apply decimal_not_empty | reflexivity]. }
  split; [exact Hstr | split; [exact Hcheck | split; [exact Hint |]]].
  intro H123. exact (Hint 123 H123).
Qed.

Lemma secret_is_str_of_token_witness :
  module_init Sample.integer_token_yaml = Ok Sample.integer_token_loaded
  /\ SECRET_TOKEN Sample.integer_token_loaded = "123"
  /\ _check_token Sample.integer_token_loaded "123" = true.
Proof.
  split; [reflexivity |].
  destruct (secret_is_str_of_token Sample.integer_token_yaml Sample.integer_token_loaded
              [(VStr "token", VInt 123)] (VInt 123))
    as [Hsecret [_ [_ H123]]].
  - reflexivity.
  - reflexivity.
  - reflexivity.
  - split; [exact Hsecret | apply H123; reflexivity].
Defined.

(* ================================================================= *)
(** ** Effects of a request *)

Lemma spawned_app (tr1 tr2 : trace) :
  spawned (tr1 ++ tr2)%list = (spawned tr1 ++ spawned tr2)%list.
Proof.
  induction tr1 as [|e tr1 IH]; [reflexivity |].
  destruct e; simpl; now rewrite IH.
Qed.

Lemma logged_app (tr1 tr2 : trace) :
  logged (tr1 ++ tr2)%list = (logged tr1 ++ logged tr2)%list.
Proof.
  induction tr1 as [|e tr1 IH]; [reflexivity |].
  destruct e; simpl; now rewrite IH.
Qed.

Lemma app_cons_neq {A : Type} (l : list A) (x : A) (l' : list A) :
  (l ++ x :: l')%list <> l.
Proof.
  intro H. apply (f_equal (@List.length A)) in H.
  rewrite length_app in H. simpl in H. lia.
Qed.

Lemma dispatcher_spawned (a : action) (h : host) (tr : trace) :
  spawned (snd (dispatcher a h tr)) = (spawned tr ++ outcome_spawned a h)%list.
Proof.
  rewrite dispatcher_eq. unfold outcome_spawned.
  destruct (native_command a (system h)) as [argv|]; [destruct (launch h argv) |];
    simpl; rewrite ?spawned_app; simpl; now rewrite ?app_nil_r.
Qed.

Lemma dispatcher_logged (a : action) (h : host) (tr : trace) :
  logged (snd (dispatcher a h tr)) = (logged tr ++ outcome_logged a h)%list.
Proof.
  rewrite dispatcher_eq. unfold outcome_logged.
  destruct (native_command a (system h)) as [argv|]; [destruct (launch h argv) |];
    simpl; rewrite ?logged_app; simpl; now rewrite ?app_nil_r.
Qed.

Lemma native_command_inj (a b : action) (os : string) (argv : list string) :
  native_command a os = Some argv -> native_command b os = Some argv -> a = b.
Proof.
  unfold native_command.
  destruct (String.eqb os "Windows");
    [| destruct (String.eqb os "Linux"); [| destruct (String.eqb os "Darwin")]];
    destruct a, b; intros Ha Hb; try reflexivity; try discriminate;
    rewrite <- Ha in Hb; discriminate.
Qed.

(** X1.  A privileged request leaves the trace as it found it exactly
    when a gate did not let it pass: a refused request calls no
    dispatcher, starts no process and logs nothing, and a request that
    passes always leaves a mark. *)
Theorem refused_request_has_no_effect
  (g : globals) (a : action) (req : request) (h : host) (tr : trace) :
  snd (serve g (Power a) req h tr) = tr <-> gates g req <> Passed.
Proof.
  rewrite serve_power_eq.
  destruct (gates g req) eqn:Hg; simpl;
    try (split; [discriminate | reflexivity]).
  split; [| intro H; now contradiction H].
  rewrite dispatcher_eq.
  destruct (native_command a (system h)) as [argv|]; [destruct (launch h argv) |];
    simpl; rewrite <- ?app_assoc; intro H; now apply app_cons_neq in H.
Qed.

(** X2.  A privileged route answers 200 only when both gates passed and
    the native command of its action was started, and then the trace
    gains the call and that one command. *)
Theorem ok_answer_means_process_started
  (g : globals) (a : action) (req : request) (h : host) (tr : trace) :
  status_code (fst (serve g (Power a) req h tr)) = 200 <->
  exists argv,
    gates g req = Passed
    /\ native_command a (system h) = Some argv
    /\ snd (serve g (Power a) req h tr) = (tr ++ [Called a; Spawned argv])%list.
Proof.
  rewrite serve_power_eq, dispatcher_eq.
  destruct (gates g req) eqn:Hg; simpl;
    try (split; [discriminate | intros [argv [H _]]; discriminate]).
  destruct (native_command a (system h)) as [argv|];
    [destruct (launch h argv) as [msg|] |]; simpl.
  - split; [discriminate |].
    intros [argv' [_ [_ H]]]. rewrite <- app_assoc in H. simpl in H.
    apply app_inv_head in H. discriminate.
  - split; [| reflexivity].
    intros _. exists argv. rewrite <- app_assoc. repeat split.
  - split; [discriminate | intros [argv' [_ [H _]]]; discriminate].
Qed.

(** X3.  Whatever the endpoint, one request starts at most one process,
    and a process it starts is the native command of the action of a
    privileged route whose gates passed; [/status] starts none. *)
Theorem request_starts_at_most_its_own_command
  (g : globals) (e : endpoint) (req : request) (h : host) (tr : trace) :
  exists l : list (list string),
    spawned (snd (serve g e req h tr)) = (spawned tr ++ l)%list
    /\ (List.length l <= 1)%nat
    /\ forall argv, In argv l ->
         exists a, e = Power a /\ gates g req = Passed
                   /\ native_command a (system h) = Some argv.
Proof.
  destruct e as [|a].
  - exists []. split; [simpl; now rewrite app_nil_r |].
    split; [simpl; lia | intros argv []].
  - rewrite serve_power_eq.
    destruct (gates g req) eqn:Hg;
      try (exists []; split; [simpl; now rewrite app_nil_r |];
           split; [simpl; lia | intros argv []]).
    exists (outcome_spawned a h).
    split.
    + rewrite <- dispatcher_spawned.
      destruct (dispatcher_returns a h tr) as [ok [tr' ->]]. reflexivity.
    + unfold outcome_spawned.
      destruct (native_command a (system h)) as [argv|] eqn:Hcmd;
        [destruct (launch h argv) |]; simpl;
        (split; [lia |]); intros argv' Hin; try contradiction.
      destruct Hin as [<- | []]. exists a. repeat split; assumption.
Qed.

(** X4.  On one host two dispatchers never start the same command: a
    command that [sleep] starts is not one [shutdown] or [restart]
    starts. *)
Theorem dispatchers_start_distinct_commands
  (a b : action) (h : host) (tr1 tr2 : trace) (argv : list string) :
  spawned (snd (dispatcher a h tr1)) = (spawned tr1 ++ [argv])%list ->
  spawned (snd (dispatcher b h tr2)) = (spawned tr2 ++ [argv])%list ->
  a = b.
Proof.
  rewrite !dispatcher_spawned. intros Ha Hb.
  apply app_inv_head in Ha, Hb. unfold outcome_spawned in Ha, Hb.
  destruct (native_command a (system h)) as [argv1|] eqn:Hca; [| discriminate].
  destruct (native_command b (system h)) as [argv2|] eqn:Hcb; [| discriminate].
  destruct (launch h argv1); [discriminate |].
  destruct (launch h argv2); [discriminate |].
  injection Ha as ->. injection Hb as ->.
  exact (native_command_inj a b (system h) argv Hca Hcb).
Qed.

Lemma dispatchers_start_distinct_commands_witness :
  spawned (snd (dispatcher Sleep Sample.linux [])) = [["systemctl"; "suspend"]]
  /\ Sleep = Sleep.
Proof.
  split; [reflexivity |].
  apply (dispatchers_start_distinct_commands Sleep Sleep Sample.linux [] []
           ["systemctl"; "suspend"]); reflexivity.
Defined.

(** X5.  A dispatcher writes to the log only when the launch of its
    command raised; on an OS family it does not know it returns false
    without starting or logging anything. *)
Theorem dispatcher_logs_only_launch_errors (a : action) (h : host) (tr : trace) :
  (logged (snd (dispatcher a h tr)) = logged tr <->
   ~ exists argv msg, native_command a (system h) = Some argv /\ launch h argv = Some msg)
  /\ (~ In (system h) recognized ->
      dispatcher a h tr = (Ok false, (tr ++ [Called a])%list)).
Proof.
  split.
  - rewrite dispatcher_logged. unfold outcome_logged.
    destruct (native_command a (system h)) as [argv|] eqn:Hcmd;
      [destruct (launch h argv) as [msg|] eqn:Hl |].
    + split.
      * intro H. now apply app_cons_neq in H.
      * intro H. contradiction H. now exists argv, msg.
    + rewrite app_nil_r. split; [| reflexivity].
      intros _ [argv' [msg [Hc Hl']]]. injection Hc as <-. congruence.
    + rewrite app_nil_r. split; [| reflexivity].
      intros _ [argv' [msg [Hc _]]]. discriminate.
  - intro Hnin. rewrite dispatcher_eq.
    destruct (native_command a (system h)) eqn:Hcmd; [| reflexivity].
    contradiction Hnin. apply (native_command_recognized a). congruence.
Qed.

Lemma dispatcher_logs_only_launch_errors_witness :
  dispatcher Restart Sample.freebsd [] = (Ok false, [Called Restart]).
Proof.
  apply (proj2 (dispatcher_logs_only_launch_errors Restart Sample.freebsd [])).
  simpl. intros [H | [H | [H | []]]]; discriminate.
Defined.

(** X6.  The status code of a privileged answer tells the gate decision:
    403 exactly when the IP gate refused, 401 exactly when the token gate
    refused, and otherwise 200 or 500. *)
Theorem status_code_tells_gate_decision
  (g : globals) (a : action) (req : request) (h : host) (tr : trace) :
  (status_code (fst (serve g (Power a) req h tr)) = 403 <-> gates g req = Denied403)
  /\ (status_code (fst (serve g (Power a) req h tr)) = 401 <-> gates g req = Denied401)
  /\ (status_code (fst (serve g (Power a) req h tr)) = 200
      \/ status_code (fst (serve g (Power a) req h tr)) = 401
      \/ status_code (fst (serve g (Power a) req h tr)) = 403
      \/ status_code (fst (serve g (Power a) req h tr)) = 500).
Proof.
  rewrite serve_power_eq.
  destruct (gates g req); simpl;
    try (repeat split; try discriminate; try reflexivity; auto; fail).
  destruct (dispatcher_returns a h tr) as [[|] [tr' ->]]; simpl;
    repeat split; try discriminate; auto.
Qed.

(* ================================================================= *)
(** ** More on the gates *)

Lemma args_get_absent (l : list (string * string)) (key default : string) :
  (forall v, ~ In (key, v) l) -> args_get l key default = default.
Proof.
  induction l as [|[k v] l IH]; intro H; [reflexivity |].
  simpl. destruct (String.eqb_spec k key) as [-> | Hne].
  - contradiction (H v). now left.
  - apply IH. intros v' Hin. apply (H v'). now right.
Qed.

Lemma args_get_first (pre rest : list (string * string)) (key v default : string) :
  (forall w, ~ In (key, w) pre) ->
  args_get (pre ++ (key, v) :: rest)%list key default = v.
Proof.
  induction pre as [|[k w] pre IH]; intro H; simpl.
  - now rewrite String.eqb_refl.
  - destruct (String.eqb_spec k key) as [-> | Hne].
    + contradiction (H w). now left.
    + apply IH. intros w' Hin. apply (H w'). now right.
Qed.

Lemma serve_refused (g : globals) (a : action) (req : request) (h : host) (tr : trace) :
  gates g req <> Passed -> snd (serve g (Power a) req h tr) = tr.
Proof.
  intro H. rewrite serve_power_eq.
  destruct (gates g req); try reflexivity. now contradiction H.
Qed.

Lemma gates_passed_inv (g : globals) (req : request) :
  gates g req = Passed ->
  _authorized_client g (remote_addr req) = Ok true
  /\ SECRET_TOKEN g <> EmptyString
  /\ supplied_token req = SECRET_TOKEN g.
Proof.
  unfold gates.
  destruct (_authorized_client g (remote_addr req)) as [[|]|]; try discriminate.
  destruct (_check_token g (supplied_token req)) eqn:Hc; [| discriminate].
  intros _. apply check_token_iff in Hc. tauto.
Qed.

(** X7.  A request without a [token] parameter, or with an empty one, is
    never let through, under any configuration, and has no effect. *)
Theorem missing_token_is_refused
  (g : globals) (a : action) (req : request) (h : host) (tr : trace) :
  (forall v, ~ In ("token", v) (args req)) \/ supplied_token req = EmptyString ->
  gates g req <> Passed
  /\ snd (serve g (Power a) req h tr) = tr.
Proof.
  intro H.
  assert (Hempty : supplied_token req = EmptyString).
  { destruct H as [H | H]; [| exact H]. now apply args_get_absent. }
  assert (Hgate : gates g req <> Passed).
  { intro Hp. apply gates_passed_inv in Hp. destruct Hp as [_ [Hne Heq]]. congruence. }
  split; [exact Hgate | now apply serve_refused].
Qed.

Lemma missing_token_is_refused_witness :
  gates Sample.loaded Edge.no_token_request = Denied401
  /\ snd (serve Sample.loaded (Power Shutdown) Edge.no_token_request Sample.linux []) = [].
Proof.
  split; [reflexivity |].
  apply (missing_token_is_refused Sample.loaded Shutdown Edge.no_token_request
           Sample.linux []).
  left. simpl. intros v [H | []]. discriminate.
Defined.

(** X8.  With an empty secret no request passes the gates, whatever token
    it carries, the empty one included. *)
Theorem empty_secret_refuses_everything
  (g : globals) (a : action) (req : request) (h : host) (tr : trace) :
  SECRET_TOKEN g = EmptyString ->
  gates g req <> Passed
  /\ status_code (fst (serve g (Power a) req h tr)) <> 200
  /\ snd (serve g (Power a) req h tr) = tr.
Proof.
  intro Hs.
  assert (Hgate : gates g req <> Passed).
  { intro Hp. apply gates_passed_inv in Hp. destruct Hp as [_ [Hne _]]. congruence. }
  split; [exact Hgate |]. split; [| now apply serve_refused].
  rewrite serve_power_eq. destruct (gates g req); simpl; try discriminate.
  now contradiction Hgate.
Qed.

Lemma empty_secret_refuses_everything_witness :
  gates Edge.no_secret Edge.no_token_request = Denied401
  /\ snd (serve Edge.no_secret (Power Sleep) Edge.no_token_request Sample.linux []) = [].
Proof.
  split; [reflexivity |].
  apply (empty_secret_refuses_everything Edge.no_secret Sleep Edge.no_token_request
           Sample.linux []).
  reflexivity.
Defined.

(** X9.  When the query string carries several [token] parameters, the
    first one is the token the gate sees; the later ones are ignored. *)
Theorem first_token_parameter_counts
  (g : globals) (ip t : string) (pre rest : list (string * string)) :
  (forall v, ~ In ("token", v) pre) ->
  supplied_token {| remote_addr := ip; args := (pre ++ ("token", t) :: rest)%list |} = t
  /\ _check_token g
       (supplied_token {| remote_addr := ip; args := (pre ++ ("token", t) :: rest)%list |})
     = _check_token g t.
Proof.
  intro H. unfold supplied_token. simpl. now rewrite (args_get_first pre rest "token" t).
Qed.

Lemma first_token_parameter_counts_witness :
  supplied_token Edge.two_tokens_request = "guess"
  /\ gates Sample.loaded Edge.two_tokens_request = Denied401.
Proof.
  destruct (first_token_parameter_counts Sample.loaded "192.168.1.50" "guess"
              [("verbose", "1")] [("token", "abc123 ")]) as [Htok _].
  - simpl. intros v [H | []]. discriminate.
  - split; [exact Htok | reflexivity].
Defined.

(** X10.  With a non-empty list as allowlist the IP gate never raises and
    decides by membership: an address passes exactly when the list holds
    it as a string, so an entry of another type matches no address. *)
Theorem list_allowlist_decides_by_membership
  (g : globals) (l : list value) (ip : string) :
  ALLOWED_IPS g = VList l -> l <> [] ->
  (_authorized_client g ip = Ok true <-> In (VStr ip) l)
  /\ (_authorized_client g ip = Ok false <-> ~ In (VStr ip) l).
Proof.
  intros Hl Hne. unfold _authorized_client. rewrite Hl.
  destruct l as [|x l]; [now contradiction Hne |].
  cbn [truthy negb contains].
  rewrite <- (existsb_str_eq ip (x :: l)).
  destruct (existsb (str_eq ip) (x :: l)); split; split;
    try reflexivity; try discriminate; congruence.
Qed.

Lemma list_allowlist_decides_by_membership_witness :
  _authorized_client Sample.loaded "192.168.1.50" = Ok true
  /\ _authorized_client Sample.loaded "192.168.1.5" = Ok false.
Proof.
  destruct (list_allowlist_decides_by_membership Sample.loaded [VStr "192.168.1.50"]
              "192.168.1.50" eq_refl) as [[_ Hin] _]; [discriminate |].
  destruct (list_allowlist_decides_by_membership Sample.loaded [VStr "192.168.1.50"]
              "192.168.1.5" eq_refl) as [_ [_ Hout]]; [discriminate |].
  split.
  - apply Hin. now left.
  - apply Hout. simpl. intros [H | []]. discriminate.
Defined.

Lemma prefix_iff (s t : string) :
  String.prefix s t = true <-> exists post, t = s ++ post.
Proof.
  revert t. induction s as [|c s IH]; intro t.
  - split; [intros _; now exists t | intros _; now destruct t].
  - destruct t as [|d t]; simpl.
    + split; [discriminate | intros [post H]; discriminate].
    + destruct (ascii_dec c d) as [-> | Hne].
      * rewrite IH. split; intros [post H]; exists post; [now rewrite H |].
        now injection H.
      * split; [discriminate |]. intros [post H]. injection H as H _. congruence.
Qed.

Lemma is_substring_unfold (s t : string) :
  is_substring s t =
  if String.prefix s t then true
  else match t with
       | EmptyString => false
       | String _ t' => is_substring s t'
       end.
Proof. destruct t; reflexivity. Qed.

(** [is_substring] is the substring relation. *)
Lemma is_substring_iff (s t : string) :
  is_substring s t = true <-> exists pre post, t = pre ++ s ++ post.
Proof.
  induction t as [|c t IH].
  - rewrite is_substring_unfold. destruct (String.prefix s EmptyString) eqn:Hp.
    + split; [| reflexivity]. intros _.
      apply prefix_iff in Hp. destruct Hp as [post H]. now exists EmptyString, post.
    + split; [discriminate |]. intros [pre [post H]].
      destruct pre; [| discriminate]. simpl in H.
      assert (String.prefix s EmptyString = true) by (apply prefix_iff; now exists post).
      congruence.
  - rewrite is_substring_unfold. destruct (String.prefix s (String c t)) eqn:Hp.
    + split; [| reflexivity]. intros _.
      apply prefix_iff in Hp. destruct Hp as [post H]. now exists EmptyString, post.
    + rewrite IH. split.
      * intros [pre [post H]]. exists (String c pre), post. simpl. now rewrite H.
      * intros [pre [post H]]. destruct pre as [|d pre].
        -- simpl in H.
           assert (String.prefix s (String c t) = true)
             by (apply prefix_iff; now exists post).
           congruence.
        -- simpl in H. injection H as _ H. now exists pre, post.
Qed.

(** X11.  When [allowed_ips] is a text instead of a list, the [in] test of
    the IP gate is a substring test: an address passes exactly when it
    occurs somewhere in that text, so a shorter address passes on the
    strength of a longer one. *)
Theorem text_allowlist_admits_substrings (g : globals) (t ip : string) :
  ALLOWED_IPS g = VStr t -> t <> EmptyString ->
  (_authorized_client g ip = Ok true <-> exists pre post, t = pre ++ ip ++ post)
  /\ (_authorized_client g ip = Ok false <-> ~ exists pre post, t = pre ++ ip ++ post).
Proof.
  intros Ht Hne. unfold _authorized_client. rewrite Ht.
  destruct t as [|c t]; [now contradiction Hne |].
  cbn [truthy negb contains].
  rewrite <- (is_substring_iff ip (String c t)).
  destruct (is_substring ip (String c t)); split; split;
    try reflexivity; try discriminate; congruence.
Qed.

Lemma text_allowlist_admits_substrings_witness :
  _authorized_client Edge.text_allowlist "192.168.1.1" = Ok true
  /\ _authorized_client Edge.text_allowlist "68.1" = Ok true.
Proof.
  destruct (text_allowlist_admits_substrings Edge.text_allowlist "192.168.1.10"
              "192.168.1.1" eq_refl) as [[_ H1] _]; [discriminate |].
  destruct (text_allowlist_admits_substrings Edge.text_allowlist "192.168.1.10"
              "68.1" eq_refl) as [[_ H2] _]; [discriminate |].
  split.
  - apply H1. now exists EmptyString, "0".
  - apply H2. now exists "192.1", ".10".
Defined.



(* ================================================================= *)
(** ** [int] after [str] on integers *)

Lemma digits_uint (d : Decimal.uint) :
  forall acc, digits acc false (chars_of_uint d) = Some (uval acc d).
Proof.
  induction d; intro acc; try reflexivity; exact (IHd _).
Qed.

Lemma uval_acc (d : Decimal.uint) :
  forall p, uval (Z.pos p) d = Z.pos (Pos.of_uint_acc d p).
Proof.
  induction d; intro p; cbn [uval Pos.of_uint_acc]; try reflexivity;
    rewrite <- IHd; f_equal; lia.
Qed.

Lemma uval_of_uint (d : Decimal.uint) : uval 0 d = Z.of_N (Pos.of_uint d).
Proof.
  induction d; cbn [uval Pos.of_uint]; try reflexivity;
    try (exact IHd); exact (uval_acc d _).
Qed.

Lemma chars_of_uint_no_space (d : Decimal.uint) :
  Forall (fun c => is_space c = false) (chars_of_uint d).
Proof.
  induction d; [constructor | ..]; (constructor; [reflexivity | exact IHd]).
Qed.

Lemma strip_no_space (s : list ascii) :
  Forall (fun c => is_space c = false) s -> strip s = s.
Proof.
  assert (Hl : forall l, Forall (fun c => is_space c = false) l -> lstrip l = l).
  { intros l Hall. destruct Hall as [|c l Hc _]; [reflexivity |]. simpl. now rewrite Hc. }
  intro Hall. unfold strip.
  rewrite (Hl s Hall), (Hl (rev s)) by now apply Forall_rev.
  apply rev_involutive.
Qed.

Lemma literal_uint (d : Decimal.uint) :
  d <> Decimal.Nil -> literal (chars_of_uint d) = Some (uval 0 d).
Proof.
  intro Hne. destruct d; [now contradiction Hne | ..]; exact (digits_uint _ 0).
Qed.

(** [int(str(n)) == n] *)
Lemma int_of_str_decimal (n : Z) : int_of_str (decimal n) = Some n.
Proof.
  destruct n as [|p|p]; [reflexivity | |];
    pose proof (DecimalPos.Unsigned.to_uint_nonnil p) as Hnn;
    pose proof (DecimalPos.Unsigned.of_to p) as Hof;
    unfold decimal, int_of_str; cbn [Z.to_int NilZero.string_of_int].
  - replace (NilZero.string_of_uint (Pos.to_uint p))
      with (NilEmpty.string_of_uint (Pos.to_uint p))
      by (destruct (Pos.to_uint p); [now contradiction Hnn | reflexivity ..]).
    change (list_ascii_of_string (NilEmpty.string_of_uint (Pos.to_uint p)))
      with (chars_of_uint (Pos.to_uint p)).
    rewrite strip_no_space by apply chars_of_uint_no_space.
    transitivity (literal (chars_of_uint (Pos.to_uint p))).
    + destruct (Pos.to_uint p); [now contradiction Hnn | reflexivity ..].
    + rewrite literal_uint by assumption. now rewrite uval_of_uint, Hof.
  - replace (NilZero.string_of_uint (Pos.to_uint p))
      with (NilEmpty.string_of_uint (Pos.to_uint p))
      by (destruct (Pos.to_uint p); [now contradiction Hnn | reflexivity ..]).
    change (list_ascii_of_string (String "-" (NilEmpty.string_of_uint (Pos.to_uint p))))
      with ("-"%char :: chars_of_uint (Pos.to_uint p)).
    rewrite strip_no_space
      by (constructor; [reflexivity | apply chars_of_uint_no_space]).
    cbn [Ascii.eqb]. change (Ascii.eqb "-" "-") with true. cbn iota.
    rewrite literal_uint by assumption. now rewrite uval_of_uint, Hof.
Qed.

(* ================================================================= *)
(** ** More on start-up *)

Lemma get_raises (d : value) (key : string) (default : value) (e : exn) :
  get d key default = Raise e -> exit_status e = 1.
Proof.
  destruct d; simpl; try (intro H; injection H as <-; reflexivity).
  destruct (lookup key items); discriminate.
Qed.

Lemma get_ok_dict (d : value) (key : string) (default v : value) :
  get d key default = Ok v ->
  exists items, d = VDict items
                /\ v = match lookup key items with Some x => x | None => default end.
Proof.
  destruct d; simpl; try discriminate.
  intro H. exists items. split; [reflexivity |].
  destruct (lookup key items); now injection H.
Qed.

Lemma int_raises (v : value) (e : exn) : int v = Raise e -> exit_status e = 1.
Proof.
  destruct v; simpl; try discriminate; try (intro H; injection H as <-; reflexivity).
  destruct (int_of_str s); [discriminate |]. intro H. injection H as <-. reflexivity.
Qed.

Lemma module_init_raises (f : config_file) (e : exn) :
  module_init f = Raise e -> exit_status e = 1.
Proof.
  unfold module_init, load_config. cbn [mbind ret result_monad].
  destruct f as [|msg|cfg]; simpl; try (intro H; injection H as <-; reflexivity).
  destruct (get cfg "esp" (VDict [])) as [esp|e1] eqn:H1; simpl;
    [| intro H; injection H as <-; exact (get_raises _ _ _ _ H1)].
  destruct (get esp "token" (VStr EmptyString)) as [token|e2] eqn:H2; simpl;
    [| intro H; injection H as <-; exact (get_raises _ _ _ _ H2)].
  destruct (get cfg "host" (VDict [])) as [host_cfg|e3] eqn:H3; simpl;
    [| intro H; injection H as <-; exact (get_raises _ _ _ _ H3)].
  destruct (get host_cfg "port" (VInt 8888)) as [port|e4] eqn:H4; simpl;
    [| intro H; injection H as <-; exact (get_raises _ _ _ _ H4)].
  destruct (int port) as [listen_port|e5] eqn:H5; simpl;
    [| intro H; injection H as <-; exact (int_raises _ _ H5)].
  destruct (get host_cfg "allowed_ips" (VList [])) as [allowed|e6] eqn:H6; simpl;
    [discriminate | intro H; injection H as <-; exact (get_raises _ _ _ _ H6)].
Qed.

(** The two ways a run can end. *)
Lemma run_script_cases (f : config_file) :
  run_script f = Exited 1
  \/ exists g, module_init f = Ok g
               /\ SECRET_TOKEN g <> EmptyString
               /\ run_script f
                  = Serving g {| bind_host := "0.0.0.0"; bind_port := LISTEN_PORT g |}.
Proof.
  unfold run_script, main.
  destruct (module_init f) as [g|e] eqn:Hinit.
  - destruct (truthy (VStr (SECRET_TOKEN g))) eqn:Ht; simpl.
    + right. exists g. repeat split. now apply truthy_str_iff.
    + now left.
  - left. now rewrite (module_init_raises f e Hinit).
Qed.

(** X13.  A run of the script has two outcomes only: it ends with exit
    status 1, whatever went wrong (no file, bad YAML, a section of the
    wrong shape, a port that is no number, an empty secret), or it serves
    on all interfaces at the loaded port. *)
Theorem run_exits_with_1_or_serves_on_all_interfaces (f : config_file) :
  (forall code, run_script f = Exited code -> code = 1)
  /\ (forall g l, run_script f = Serving g l ->
        bind_host l = "0.0.0.0" /\ bind_port l = LISTEN_PORT g).
Proof.
  destruct (run_script_cases f) as [H | [g [_ [_ H]]]]; rewrite H; split.
  - intros code Hc. now injection Hc.
  - discriminate.
  - discriminate.
  - intros g' l Hs. injection Hs as <- <-. split; reflexivity.
Qed.

Lemma run_exits_with_1_or_serves_on_all_interfaces_witness :
  (forall code, run_script (Malformed "mapping values are not allowed here") = Exited code
                -> code = 1)
  /\ bind_host {| bind_host := "0.0.0.0"; bind_port := 8888 |} = "0.0.0.0".
Proof.
  split.
  - exact (proj1 (run_exits_with_1_or_serves_on_all_interfaces
                    (Malformed "mapping values are not allowed here"))).
  - apply (proj2 (run_exits_with_1_or_serves_on_all_interfaces Sample.device_yaml)
             Sample.loaded).
    reflexivity.
Defined.

(** X14.  A configuration without an [esp] section, without [esp.token],
    or with the empty string as token never gets to serve: the run ends
    with status 1, whatever the rest of the file holds. *)
Theorem run_without_token_exits (items : list (value * value)) :
  (lookup "esp" items = None
   \/ exists esp_items,
        lookup "esp" items = Some (VDict esp_items)
        /\ (lookup "token" esp_items = None
            \/ lookup "token" esp_items = Some (VStr EmptyString))) ->
  run_script (Parsed (VDict items)) = Exited 1.
Proof.
  intro H.
  destruct (run_script_cases (Parsed (VDict items))) as [Hexit | [g [Hinit [Hne _]]]];
    [exact Hexit |].
  exfalso. apply Hne.
  destruct (module_init_inv _ g Hinit)
    as (cfg & esp & token & host_cfg & port & allowed
        & Hf & Hesp & Htoken & _ & _ & _ & _ & Hsecret & _).
  injection Hf as <-. rewrite Hsecret. simpl in Hesp.
  destruct H as [Hnone | [esp_items [Hsome Htok]]].
  - rewrite Hnone in Hesp. injection Hesp as <-. simpl in Htoken.
    injection Htoken as <-. reflexivity.
  - rewrite Hsome in Hesp. injection Hesp as <-. simpl in Htoken.
    destruct Htok as [Ht | Ht]; rewrite Ht in Htoken; injection Htoken as <-; reflexivity.
Qed.

Lemma run_without_token_exits_witness :
  run_script (Parsed (VDict [(VStr "host", VDict [(VStr "port", VInt 8888)])])) = Exited 1.
Proof.
  apply (run_without_token_exits [(VStr "host", VDict [(VStr "port", VInt 8888)])]).
  left. reflexivity.
Defined.

(** X15.  The document and its [esp] and [host] sections have to be
    mappings: an empty file (which loads as [None]), a list or scalar at
    the top, or an [esp] or [host] key holding anything but a mapping
    (a bare [esp:] included) ends the run with status 1. *)
Theorem run_on_misshaped_config_exits (cfg : value) :
  ((forall items, cfg <> VDict items)
   \/ exists items v,
        cfg = VDict items
        /\ (lookup "esp" items = Some v \/ lookup "host" items = Some v)
        /\ forall l, v <> VDict l) ->
  run_script (Parsed cfg) = Exited 1.
Proof.
  intro H.
  destruct (run_script_cases (Parsed cfg)) as [Hexit | [g [Hinit _]]]; [exact Hexit |].
  exfalso.
  destruct (module_init_inv _ g Hinit)
    as (cfg' & esp & token & host_cfg & port & allowed
        & Hf & Hesp & Htoken & Hhost & Hport & _).
  injection Hf as <-.
  destruct H as [Hnd | [items [v [-> [Hkey Hnd]]]]].
  - destruct (get_ok_dict _ _ _ _ Hesp) as [items [-> _]]. now apply (Hnd items).
  - destruct Hkey as [Hk | Hk].
    + simpl in Hesp. rewrite Hk in Hesp. injection Hesp as <-.
      destruct (get_ok_dict _ _ _ _ Htoken) as [l [-> _]]. now apply (Hnd l).
    + simpl in Hhost. rewrite Hk in Hhost. injection Hhost as <-.
      destruct (get_ok_dict _ _ _ _ Hport) as [l [-> _]]. now apply (Hnd l).
Qed.

Lemma run_on_misshaped_config_exits_witness :
  run_script (Parsed VNone) = Exited 1
  /\ run_script (Parsed (VDict [(VStr "esp", VNone)])) = Exited 1.
Proof.
  split.
  - apply (run_on_misshaped_config_exits VNone). left. discriminate.
  - apply (run_on_misshaped_config_exits (VDict [(VStr "esp", VNone)])).
    right. exists [(VStr "esp", VNone)], VNone.
    split; [reflexivity |]. split; [now left | discriminate].
Defined.



(** X17.  What is absent takes its default: without a [host] section the
    module loads port 8888 and the empty allowlist, and a [host] section
    without [port] loads port 8888. *)
Theorem absent_host_settings_take_defaults
  (f : config_file) (g : globals) (items : list (value * value)) :
  module_init f = Ok g ->
  CFG g = VDict items ->
  (lookup "host" items = None ->
   HOST_CFG g = VDict [] /\ LISTEN_PORT g = 8888 /\ ALLOWED_IPS g = VList [])
  /\ (forall host_items,
        HOST_CFG g = VDict host_items -> lookup "port" host_items = None ->
        LISTEN_PORT g = 8888).
Proof.
  intros Hinit Hcfg.
  destruct (module_init_inv f g Hinit)
    as (cfg & esp & token & host_cfg & port & allowed
        & _ & _ & _ & Hhost & Hport & Hallowed & Hc & _ & Hh & Hint & Hal).
  rewrite Hc in Hcfg. subst cfg.
  split.
  - intro Hnone. simpl in Hhost. rewrite Hnone in Hhost. injection Hhost as <-.
    simpl in Hport, Hallowed. injection Hport as <-. injection Hallowed as <-.
    simpl in Hint. injection Hint as <-.
    repeat split; [now rewrite Hh | now rewrite Hal].
  - intros host_items Hitems Hnone. rewrite Hh in Hitems. rewrite Hitems in Hport.
    simpl in Hport. rewrite Hnone in Hport. injection Hport as <-.
    simpl in Hint. now injection Hint.
Qed.

Lemma absent_host_settings_take_defaults_witness :
  module_init Sample.integer_token_yaml = Ok Sample.integer_token_loaded
  /\ LISTEN_PORT Sample.integer_token_loaded = 8888
  /\ ALLOWED_IPS Sample.integer_token_loaded = VList [].
Proof.
  split; [reflexivity |].
  destruct (absent_host_settings_take_defaults Sample.integer_token_yaml
              Sample.integer_token_loaded
              [ (VStr "esp", VDict [ (VStr "token", VInt 123) ]) ] eq_refl eq_refl)
    as [Habsent _].
  destruct (Habsent eq_refl) as [_ [Hport Hal]].
  split; assumption.
Defined.

(** X18.  A port written as text loads as the number it spells: the
    decimal numeral of [n] under [host.port], quoted in the YAML file,
    gives the same listen port as the integer [n]. *)
Theorem port_text_loads_as_number
  (f : config_file) (g : globals) (host_items : list (value * value)) (n : Z) :
  module_init f = Ok g ->
  HOST_CFG g = VDict host_items ->
  (lookup "port" host_items = Some (VStr (decimal n))
   \/ lookup "port" host_items = Some (VInt n)) ->
  LISTEN_PORT g = n.
Proof.
  intros Hinit Hitems Hport.
  destruct (module_init_inv f g Hinit)
    as (cfg & esp & token & host_cfg & port & allowed
        & _ & _ & _ & _ & Hget & _ & _ & _ & Hh & Hint & _).
  rewrite Hh in Hitems. rewrite Hitems in Hget. simpl in Hget.
  destruct Hport as [Hp | Hp]; rewrite Hp in Hget; injection Hget as <-; simpl in Hint.
  - rewrite int_of_str_decimal in Hint. now injection Hint.
  - now injection Hint.
Qed.

Lemma port_text_loads_as_number_witness :
  module_init Sample.null_allowlist_yaml = Ok Sample.null_allowlist_loaded
  /\ LISTEN_PORT Sample.null_allowlist_loaded = 9000.
Proof.
  split; [reflexivity |].
  apply (port_text_loads_as_number Sample.null_allowlist_yaml Sample.null_allowlist_loaded
           [ (VStr "port", VStr "9000"); (VStr "allowed_ips", VNone) ] 9000).
  - reflexivity.
  - reflexivity.
  - left. reflexivity.
Defined.

(* ================================================================= *)
(** ** More on the status answer *)

Lemma int_of_float_mono (x y : Q) :
  (x <= y)%Q -> int_of_float x <= int_of_float y.
Proof.
  destruct x as [a b], y as [c d]. unfold Qle, int_of_float. simpl. intro H.
  rewrite <- (Z.quot_mul_cancel_r a (Z.pos b) (Z.pos d)) by lia.
  rewrite <- (Z.quot_mul_cancel_r c (Z.pos d) (Z.pos b)) by lia.
  rewrite (Z.mul_comm (Z.pos d) (Z.pos b)).
  apply Z.quot_le_mono; lia.
Qed.

(** X19.  The [uptime] a client reads never goes down while the clock of
    the host goes forward: of two [/status] answers, the one taken at the
    later clock reading carries the larger or equal value. *)
Theorem uptime_follows_the_clock
  (g : globals) (req1 req2 : request) (h1 h2 : host) (tr1 tr2 : trace) :
  (time h1 <= time h2)%Q ->
  exists n1 n2,
    field "uptime" (fst (serve g Status req1 h1 tr1)) = Some (JInt n1)
    /\ field "uptime" (fst (serve g Status req2 h2 tr2)) = Some (JInt n2)
    /\ n1 <= n2.
Proof.
  intro H. exists (int_of_float (time h1)), (int_of_float (time h2)).
  split; [reflexivity |]. split; [reflexivity |]. now apply int_of_float_mono.
Qed.

Lemma uptime_follows_the_clock_witness :
  exists n1 n2,
    field "uptime" (fst (serve Sample.loaded Status Sample.good_request
                           (at_time Sample.linux 1700000000) [])) = Some (JInt n1)
    /\ field "uptime" (fst (serve Sample.loaded Status Sample.good_request
                              Sample.linux [])) = Some (JInt n2)
    /\ n1 <= n2.
Proof.
  apply (uptime_follows_the_clock Sample.loaded Sample.good_request Sample.good_request
           (at_time Sample.linux 1700000000) Sample.linux [] []).
  discriminate.
Defined.

(* ================================================================= *)
(** ** The three routes side by side *)

(** X20.  The three privileged routes guard alike: a request that one of
    them refuses gets the very same answer from the other two, and one
    they let through reaches on each the dispatcher of that route and no
    other. *)
Theorem privileged_routes_guard_alike
  (g : globals) (a b : action) (req : request) (h : host) (tr : trace) :
  (gates g req <> Passed ->
   serve g (Power a) req h tr = serve g (Power b) req h tr)
  /\ (gates g req = Passed ->
      calls (snd (serve g (Power a) req h tr)) = (calls tr ++ [a])%list
      /\ calls (snd (serve g (Power b) req h tr)) = (calls tr ++ [b])%list).
Proof.
  rewrite !serve_power_eq.
  split.
  - intro H. destruct (gates g req); try reflexivity. now contradiction H.
  - intros ->. split.
    + rewrite <- (dispatcher_calls a h tr).
      destruct (dispatcher_returns a h tr) as [ok [tr' ->]]. reflexivity.
    + rewrite <- (dispatcher_calls b h tr).
      destruct (dispatcher_returns b h tr) as [ok [tr' ->]]. reflexivity.
Qed.

Lemma privileged_routes_guard_alike_witness :
  serve Sample.loaded (Power Sleep) Sample.stranger_request Sample.linux []
  = serve Sample.loaded (Power Restart) Sample.stranger_request Sample.linux []
  /\ calls (snd (serve Sample.loaded (Power Restart) Sample.good_request Sample.linux []))
     = [Restart].
Proof.
  split.
  - apply (proj1 (privileged_routes_guard_alike Sample.loaded Sleep Restart
                    Sample.stranger_request Sample.linux [])).
    discriminate.
  - apply (proj2 (privileged_routes_guard_alike Sample.loaded Sleep Restart
                    Sample.good_request Sample.linux [])).
    reflexivity.
Defined.
